(** * aws-cli-federator: account lookup, role selection and credential upsert

    A shallow embedding of [main.go]: [matchAccount], the role selection
    block of [main] and [WriteAWSCredentials], together with a model of the
    operations of [gopkg.in/ini.v1] and of the terminal and the filesystem
    that this code calls. *)

From Stdlib Require Import String Ascii List ZArith Lia Bool DecimalString DecimalPos.
Import ListNotations.
Open Scope string_scope.
Open Scope list_scope.

(** ** The INI document, as [gopkg.in/ini.v1] presents it to [main.go]

    An [ini.File] keeps its sections in file order and every section keeps its
    keys in file order; names are unique in both (a second [NewSection] with a
    known name returns the existing section, a second [NewKey] with a known
    name overwrites the value in place).  Sections are handed out as pointers
    into the file: here a section pointer is the section's name, and the
    operations that write through it take the file and the name.

    The model leaves out what [main.go] never relies on: comments, the
    lookup of a missing key in the parent of a dotted section name, and the
    [%(name)s] substitution in values. *)
Module ini.

Definition DEFAULT_SECTION : string := "DEFAULT".

Record SectionT : Type := mkSection
  { Name : string;
    keys : list (string * string) }.

Definition File : Type := list SectionT.

(** [&ini.Section{}] *)
Definition zeroSection : SectionT := mkSection "" [].

Definition newSection (name : string) : SectionT := mkSection name [].

Definition Sections (f : File) : list SectionT := f.

Definition SectionStrings (f : File) : list string := map Name f.

Definition KeyStrings (s : SectionT) : list string := map fst (keys s).

Fixpoint lookupKey (k : string) (ks : list (string * string)) : option string :=
  match ks with
  | [] => None
  | (k', v) :: t => if String.eqb k' k then Some v else lookupKey k t
  end.

Fixpoint lookupSection (name : string) (f : File) : option SectionT :=
  match f with
  | [] => None
  | s :: t => if String.eqb (Name s) name then Some s else lookupSection name t
  end.

(** The section a name designates: the empty name designates the default
    section. *)
Definition sectionName (name : string) : string :=
  if String.eqb name "" then DEFAULT_SECTION else name.

(** [f.GetSection(name)]; [None] is the error "section does not exist". *)
Definition GetSection (f : File) (name : string) : option SectionT :=
  lookupSection (sectionName name) f.

(** [f.NewSection(name)]; [None] is the error "empty section name". *)
Definition NewSection (f : File) (name : string) : option File :=
  if String.eqb name "" then None
  else match lookupSection name f with
       | Some _ => Some f
       | None => Some (f ++ [newSection name])
       end.

(** [s.HasKey(name)] *)
Definition HasKey (s : SectionT) (name : string) : bool :=
  match lookupKey name (keys s) with Some _ => true | None => false end.

(** [s.Key(name).String()] *)
Definition Key (s : SectionT) (name : string) : string :=
  match lookupKey name (keys s) with Some v => v | None => "" end.

(** The key list after [NewKey(k, v)]: the value is overwritten where the key
    stands, a new key goes to the end. *)
Fixpoint setKey (k v : string) (ks : list (string * string)) : list (string * string) :=
  match ks with
  | [] => [(k, v)]
  | (k', v') :: t =>
      if String.eqb k' k then (k', v) :: t else (k', v') :: setKey k v t
  end.

Definition withKey (k v : string) (s : SectionT) : SectionT :=
  mkSection (Name s) (setKey k v (keys s)).

(** Writing through a section pointer: the section of that name is replaced
    in the file. *)
Fixpoint alterSection (name : string) (g : SectionT -> SectionT) (f : File) : File :=
  match f with
  | [] => []
  | s :: t =>
      if String.eqb (Name s) name then g s :: t else s :: alterSection name g t
  end.

(** [sec.NewKey(k, v)] for the section [sec] of [f]; [None] is the error
    "empty key name". *)
Definition NewKey (f : File) (sec : string) (k v : string) : option File :=
  if String.eqb k "" then None
  else Some (alterSection sec (withKey k v) f).

(** The lines of an INI file that carry data. *)
Inductive Line : Type :=
| Header (name : string)
| KeyValue (k v : string).

(** The parser's loop: lines before the first header belong to the default
    section. *)
Fixpoint parse (ls : list Line) (cur : string) (f : File) : option File :=
  match ls with
  | [] => Some f
  | Header n :: t =>
      match NewSection f n with
      | None => None
      | Some f' => parse t n f'
      end
  | KeyValue k v :: t =>
      match NewKey f cur k v with
      | None => None
      | Some f' => parse t cur f'
      end
  end.

Definition Empty : File := [newSection DEFAULT_SECTION].

(** [ini.Load] on the content of a file. *)
Definition LoadData (ls : list Line) : option File :=
  parse ls DEFAULT_SECTION Empty.

Definition keyLines (s : SectionT) : list Line :=
  map (fun kv => KeyValue (fst kv) (snd kv)) (keys s).

(** [f.WriteTo]: the first section (the default one) is written without its
    header. *)
Fixpoint writeSections (i : nat) (f : File) : list Line :=
  match f with
  | [] => []
  | s :: t =>
      (if Nat.eqb i 0 then keyLines s else Header (Name s) :: keyLines s)
        ++ writeSections (S i) t
  end.

Definition WriteTo (f : File) : list Line := writeSections 0 f.

(** The files [Load] and [SaveTo] work on: the data lines stored under a
    path, [None] where there is no readable file. *)
Definition Disk : Type := string -> option (list Line).

Definition store (path : string) (content : option (list Line)) (d : Disk) : Disk :=
  fun q => if String.eqb q path then content else d q.

(** [ini.Load(path)]; [None] is the error (no file, or a line that does not
    parse). *)
Definition Load (d : Disk) (path : string) : option File :=
  match d path with
  | None => None
  | Some ls => LoadData ls
  end.

(** [f.SaveTo(path)].  Whether the operating system lets the save go through
    is not decided by the program: [fault = None] is a save that succeeds,
    [fault = Some c] is a save that fails and leaves [c] under the
    path ([c] is the previous content when the failure is clean, and
    anything else when it is not: a truncated file, or no file).  The
    boolean is [err == nil]. *)
Definition SaveTo (fault : option (option (list Line))) (f : File) (path : string)
    (d : Disk) : Disk * bool :=
  match fault with
  | None => (store path (Some (WriteTo f)) d, true)
  | Some remains => (store path remains d, false)
  end.

(** What every loaded file satisfies. *)
Definition wfSection (s : SectionT) : Prop :=
  Name s <> "" /\ NoDup (KeyStrings s) /\ Forall (fun k => k <> "") (KeyStrings s).

Definition wf (f : File) : Prop :=
  (exists ks t, f = mkSection DEFAULT_SECTION ks :: t)
  /\ NoDup (SectionStrings f)
  /\ Forall wfSection f.

End ini.

(** ** [path/filepath] *)
Module filepath.

(** [filepath.Join(dir, name)].  The cleaning of the joined path is left
    out: the result only serves as the name of one file. *)
Definition Join (dir name : string) : string :=
  if String.eqb dir "" then name else dir ++ "/" ++ name.

End filepath.

(** ** The [federator] package, as [main.go] uses it *)
Module federator.

(** [type Role string] *)
Definition Role : Type := string.

(** The accessors of a role that the menu prints.  Their code is not part of
    [main.go]; everything below holds for any implementation of them. *)
Class RoleMethods : Type :=
  { AccountId : Role -> string;
    RoleName : Role -> string;
    RoleArn : Role -> string }.

(** The pieces of [s] between the separators [sep]. *)
Fixpoint fields (sep : ascii) (s : string) : list string :=
  match s with
  | EmptyString => [""]
  | String c t =>
      if Ascii.eqb c sep then "" :: fields sep t
      else match fields sep t with
           | x :: r => String c x :: r
           | [] => [String c ""]
           end
  end.

(** Modelled from the spec: the accessors of [federator.Role], whose package
    is not among the sources.  A role is the text
    [arn:aws:iam::<account-id>:role/<role-name>]; [accountId()] is the
    account id in it, [roleName()] the role name, and [arn()] the whole
    text. *)
Definition arnMethods : RoleMethods :=
  {| AccountId := fun r => nth 4 (fields ":" r) "";
     RoleName := fun r => String.concat "/" (tl (fields "/" r));
     RoleArn := fun r => r |}.

Record Credentials : Type := mkCredentials
  { AccessKeyId : string;
    SecretAccessKey : string;
    SessionToken : string;
    Expiration : string }.

(** What [aws.GetRoles()] hands back: the roles, and [Some msg] for a non-nil
    error. *)
Definition GetRolesResult : Type := (list Role * option string)%type.

End federator.

Import federator.

(** ** Go's [int] (64 bits) and slices *)

Open Scope Z_scope.

Definition min_int : Z := - 2 ^ 63.
Definition max_int : Z := 2 ^ 63 - 1.

Definition wrap64 (z : Z) : Z := (z + 2 ^ 63) mod 2 ^ 64 - 2 ^ 63.

Definition add64 (a b : Z) : Z := wrap64 (a + b).
Definition sub64 (a b : Z) : Z := wrap64 (a - b).

Definition len {A : Type} (l : list A) : Z := Z.of_nat (length l).

(** ** The terminal: what is typed, line by line, and what has been printed *)

Record Terminal : Type := mkTerminal
  { stdin : list string;
    stdout : list string }.

Definition Printf (s : string) (t : Terminal) : Terminal :=
  mkTerminal (stdin t) (stdout t ++ [s]).

(** [%d] *)
Definition fmt_d (z : Z) : string := DecimalString.NilZero.string_of_int (Z.to_int z).

Definition isDigit (c : ascii) : bool :=
  (48 <=? nat_of_ascii c)%nat && (nat_of_ascii c <=? 57)%nat.

Definition digitValue (c : ascii) : Z := Z.of_nat (nat_of_ascii c) - 48.

Definition isSpace (c : ascii) : bool :=
  (nat_of_ascii c =? 32)%nat || (nat_of_ascii c =? 9)%nat || (nat_of_ascii c =? 13)%nat.

Fixpoint skipSpace (s : string) : string :=
  match s with
  | String c t => if isSpace c then skipSpace t else s
  | EmptyString => s
  end.

(** The longest run of digits at the head of [s], as a number; [None] when
    there is no digit. *)
Fixpoint scanNumber (s : string) (acc : option Z) : option Z :=
  match s with
  | String c t =>
      if isDigit c
      then scanNumber t (Some (10 * match acc with Some a => a | None => 0 end + digitValue c))
      else acc
  | EmptyString => acc
  end.

Definition inRange64 (z : Z) : bool := (min_int <=? z) && (z <=? max_int).

(** The verb [%d] on one line of input: blanks, an optional sign, digits; an
    error ([None]) when there is no digit or the number does not fit an
    [int]. *)
Definition scanInt (line : string) : option Z :=
  let s := skipSpace line in
  let signed :=
    match s with
    | String "-" t => option_map Z.opp (scanNumber t None)
    | String "+" t => scanNumber t None
    | _ => scanNumber s None
    end in
  match signed with
  | Some z => if inRange64 z then Some z else None
  | None => None
  end.

(** [fmt.Scanf("%d", &i)]: [None] is a non-nil error (also at end of input). *)
Definition Scanf_d (t : Terminal) : option Z * Terminal :=
  match stdin t with
  | [] => (None, t)
  | line :: rest => (scanInt line, mkTerminal rest (stdout t))
  end.

(** ** How [main] can end inside the role selection *)

(** The two fatal errors of the role selection; each is a message on the
    terminal followed by [os.Exit(1)]. *)
Inductive Failure : Type :=
| RoleNotFound
| InvalidSelection.

Inductive Outcome (A : Type) : Type :=
| Ok (a : A)
| Exit (e : Failure)
| Panic (i : Z).   (* runtime error: index out of range [i] *)

Arguments Ok {A} a.
Arguments Exit {A} e.
Arguments Panic {A} i.

(** [s[j]] on a slice *)
Definition index {A : Type} (s : list A) (j : Z) : Outcome A :=
  if (0 <=? j) && (j <? len s)
  then match nth_error s (Z.to_nat j) with
       | Some a => Ok a
       | None => Panic j
       end
  else Panic j.

(** ** [main.go] *)

Definition nl : string := String (ascii_of_nat 10) EmptyString.

Record configuration : Type := mkConfiguration
  { path : string;
    cfg : ini.File;
    account : string;
    profile : string }.

(** The loop of [matchAccount] over [c.cfg.Sections()]. *)
Fixpoint matchAccount_range (account : string) (sections : list ini.SectionT)
    : ini.SectionT * bool :=
  match sections with
  | [] => (ini.zeroSection, false)
  | acct :: rest =>
      if String.eqb (ini.Name acct) account then (acct, true)
      else matchAccount_range account rest
  end.

Definition matchAccount (c : configuration) : ini.SectionT * bool :=
  matchAccount_range (account c) (ini.Sections (cfg c)).

(** [main], lines 100 to 102: no account on the command line means
    ["default"]. *)
Definition main_account (c : configuration) : configuration :=
  if String.eqb (account c) ""
  then mkConfiguration (path c) (cfg c) "default" (profile c)
  else c.

(** [main], lines 159 to 162: a failure of [GetRoles] is printed, and [main]
    goes on with the roles it was handed. *)
Definition main_GetRoles (res : GetRolesResult) (t : Terminal) : list Role * Terminal :=
  match snd res with
  | Some err => (fst res, Printf ("ERROR: Could not retrieve roles: " ++ err ++ nl) t)
  | None => (fst res, t)
  end.

(** [main], lines 166 to 171: the first role equal to the configured one, the
    zero value [""] when the loop ends without a match. *)
Fixpoint main_findRole (assume_role : string) (roles : list Role) : Role :=
  match roles with
  | [] => ""
  | r :: rest => if String.eqb assume_role r then r else main_findRole assume_role rest
  end.

Section Menu.
Context {RM : RoleMethods}.

(** [main], lines 183 to 190: the menu when there is an account map; [n] is
    the loop index. *)
Fixpoint main_menuMapped (accountMap : ini.SectionT) (n : Z) (roles : list Role)
    (t : Terminal) : Terminal :=
  match roles with
  | [] => t
  | role :: rest =>
      let t' :=
        if ini.HasKey accountMap (AccountId role)
        then
          let an := ini.Key accountMap (AccountId role) in
          Printf (fmt_d (n + 1) ++ ") " ++ an ++ ":role/" ++ RoleName role ++ nl) t
        else Printf (fmt_d (n + 1) ++ ") " ++ RoleArn role ++ nl) t in
      main_menuMapped accountMap (n + 1) rest t'
  end.

(** [main], lines 192 to 194: the menu when there is none. *)
Fixpoint main_menuPlain (n : Z) (roles : list Role) (t : Terminal) : Terminal :=
  match roles with
  | [] => t
  | role :: rest =>
      main_menuPlain (n + 1) rest (Printf (fmt_d (n + 1) ++ ") " ++ RoleArn role ++ nl) t)
  end.

Definition main_menu (cfg : ini.File) (roles : list Role) (t : Terminal) : Terminal :=
  match ini.GetSection cfg "account_map" with
  | Some accountMap => main_menuMapped accountMap 0 roles t
  | None => main_menuPlain 0 roles t
  end.

(** The menu entry as the specification words it, for the role shown under
    the 1-based number [number]: [<number>) <friendly-name>:role/<role-name>]
    when there is an account map that has the role's account id, and
    [<number>) <full-arn>] otherwise. *)
Definition spec_menuEntry (accountMap : option ini.SectionT) (number : Z) (role : Role)
    : string :=
  match accountMap with
  | Some m =>
      if ini.HasKey m (AccountId role)
      then fmt_d number ++ ") " ++ ini.Key m (AccountId role) ++ ":role/" ++ RoleName role ++ nl
      else fmt_d number ++ ") " ++ RoleArn role ++ nl
  | None => fmt_d number ++ ") " ++ RoleArn role ++ nl
  end.

(** [main], lines 196 to 211: prompt, read the number, check it, index. *)
Definition main_choose (roles : list Role) (t : Terminal) : Outcome Role * Terminal :=
  let t1 := Printf "Enter the ID# of the role you want to assume: " t in
  match Scanf_d t1 with
  | (None, t2) => (Exit InvalidSelection, Printf ("ERROR: Invalid selection made." ++ nl) t2)
  | (Some i, t2) =>
      if i >? add64 (len roles) 1
      then (Exit InvalidSelection,
            Printf ("ERROR: Invalid ID selection, but in range from " ++ fmt_d 1
                    ++ " to " ++ fmt_d (add64 (len roles) 1) ++ "." ++ nl) t2)
      else (index roles (sub64 i 1), t2)
  end.

(** [main], lines 164 to 213: the value of [roleToAssume], or the way [main]
    ends before it has one. *)
Definition main_roleToAssume (cfg : ini.File) (acct : ini.SectionT) (roles : list Role)
    (t : Terminal) : Outcome Role * Terminal :=
  if ini.HasKey acct "assume_role" then
    let roleToAssume := main_findRole (ini.Key acct "assume_role") roles in
    if String.eqb roleToAssume ""
    then (Exit RoleNotFound,
          Printf ("ERROR: Unable to find role '" ++ ini.Key acct "assume_role"
                  ++ "'.  Perhaps your federator configuration is incorrect?" ++ nl) t)
    else (Ok roleToAssume, t)
  else
    if len roles =? 1
    then (index roles 0, t)
    else main_choose roles (main_menu cfg roles t).

(** [main], lines 159 to 213. *)
Definition main_roles (res : GetRolesResult) (cfg : ini.File) (acct : ini.SectionT)
    (t : Terminal) : Outcome Role * Terminal :=
  let (roles, t') := main_GetRoles res t in
  main_roleToAssume cfg acct roles t'.

End Menu.

(** ** [WriteAWSCredentials] *)

(** What the function reads from and writes to: [user.Current()] (the home
    directory, [None] for an error), the files, and how the next save
    ends. *)
Record World : Type := mkWorld
  { currentUser : option string;
    disk : ini.Disk;
    saveFault : option (option (list ini.Line)) }.

(** The errors [WriteAWSCredentials] returns, by place of return. *)
Inductive WriteError : Type :=
| ErrCurrentUser          (* Unable to get current user information *)
| ErrLoad                 (* the error of ini.Load *)
| ErrCreateProfile        (* Unable to create credential profile *)
| ErrRetrieveProfile      (* Unable to retrieve recently created profile *)
| ErrAccessKeyId          (* Unable to write aws_access_key_id to credential file *)
| ErrSecretAccessKey      (* Unable to write aws_secret_access_key to credential file *)
| ErrSessionToken         (* Unable to write aws_session_token to credential file *)
| ErrSave.                (* Unable to save configuration to disk *)

Definition orElse {A : Type} (o : option A) (e : WriteError) : WriteError + A :=
  match o with
  | Some a => inr a
  | None => inl e
  end.

Definition bindE {A B : Type} (m : WriteError + A) (k : A -> WriteError + B)
    : WriteError + B :=
  match m with
  | inl e => inl e
  | inr a => k a
  end.

Notation "x <- m ;; k" := (bindE m (fun x => k))
  (at level 61, m at next level, right associativity).

Definition credentialsPath (home : string) : string :=
  filepath.Join home ".aws/credentials".

(** The keys [WriteAWSCredentials] writes. *)
Definition managedKeys : list string :=
  ["aws_access_key_id"; "aws_secret_access_key"; "aws_session_token"].

(** Lines 234 to 271: everything up to the save, which touches no file.  The
    result is the path and the document to save. *)
Definition WriteAWSCredentials_document (c : Credentials) (p : string) (w : World)
    : WriteError + (string * ini.File) :=
  home <- orElse (currentUser w) ErrCurrentUser ;;
  let cpath := credentialsPath home in
  cfg0 <- orElse (ini.Load (disk w) cpath) ErrLoad ;;
  cfg1 <- match ini.GetSection cfg0 p with
          | Some _ => inr cfg0
          | None => orElse (ini.NewSection cfg0 p) ErrCreateProfile
          end ;;
  prof <- orElse (ini.GetSection cfg1 p) ErrRetrieveProfile ;;
  cfg2 <- orElse (ini.NewKey cfg1 (ini.Name prof) "aws_access_key_id" (AccessKeyId c))
                 ErrAccessKeyId ;;
  cfg3 <- orElse (ini.NewKey cfg2 (ini.Name prof) "aws_secret_access_key" (SecretAccessKey c))
                 ErrSecretAccessKey ;;
  cfg4 <- orElse (ini.NewKey cfg3 (ini.Name prof) "aws_session_token" (SessionToken c))
                 ErrSessionToken ;;
  inr (credentialsPath home, cfg4).

(** [WriteAWSCredentials(c, p)]: the world afterwards and the error returned
    ([None] for [nil]). *)
Definition WriteAWSCredentials (c : Credentials) (p : string) (w : World)
    : World * option WriteError :=
  match WriteAWSCredentials_document c p w with
  | inl e => (w, Some e)
  | inr (cpath, cfg) =>
      match ini.SaveTo (saveFault w) cfg cpath (disk w) with
      | (d, true) => (mkWorld (currentUser w) d (saveFault w), None)
      | (d, false) => (mkWorld (currentUser w) d (saveFault w), Some ErrSave)
      end
  end.

(** The three [NewKey] calls of lines 259 to 271, on the key list of the
    profile. *)
Definition threeKeys (c : Credentials) (ks : list (string * string)) : list (string * string) :=
  ini.setKey "aws_session_token" (SessionToken c)
    (ini.setKey "aws_secret_access_key" (SecretAccessKey c)
       (ini.setKey "aws_access_key_id" (AccessKeyId c) ks)).

Definition withCredentials (c : Credentials) (s : ini.SectionT) : ini.SectionT :=
  ini.mkSection (ini.Name s) (threeKeys c (ini.keys s)).

(** The value of key [k] in the profile [p] designates, if any. *)
Definition profileKey (f : ini.File) (p k : string) : option string :=
  match ini.GetSection f p with
  | Some prof => ini.lookupKey k (ini.keys prof)
  | None => None
  end.

(** * Facts about the INI model *)

Module IniFacts.
Import ini.

Ltac case_eqb a b :=
  let E := fresh "E" in
  destruct (String.eqb a b) eqn:E;
  [apply String.eqb_eq in E | apply String.eqb_neq in E].

(** *** Keys *)

Lemma lookupKey_setKey_same k v ks : lookupKey k (setKey k v ks) = Some v.
Proof.
  induction ks as [|[k' v'] t IH]; simpl.
  - now rewrite String.eqb_refl.
  - case_eqb k' k; simpl.
    + subst. now rewrite String.eqb_refl.
    + apply String.eqb_neq in E. now rewrite E.
Qed.

Lemma lookupKey_setKey_other k v k0 ks :
  k0 <> k -> lookupKey k0 (setKey k v ks) = lookupKey k0 ks.
Proof.
  intros Hne. induction ks as [|[k' v'] t IH]; simpl.
  - case_eqb k k0; congruence.
  - case_eqb k' k; simpl.
    + subst. case_eqb k k0; congruence.
    + now rewrite IH.
Qed.

Lemma setKey_fresh k v ks :
  ~ In k (map fst ks) -> setKey k v ks = ks ++ [(k, v)].
Proof.
  induction ks as [|[k' v'] t IH]; simpl; intros Hn; [reflexivity|].
  case_eqb k' k.
  - exfalso. apply Hn. now left.
  - rewrite IH; [reflexivity|]. intros H. apply Hn. now right.
Qed.

Lemma setKey_names_known k v ks :
  In k (map fst ks) -> map fst (setKey k v ks) = map fst ks.
Proof.
  induction ks as [|[k' v'] t IH]; simpl; intros Hin; [contradiction|].
  case_eqb k' k; simpl; [reflexivity|].
  destruct Hin as [->|Hin]; [congruence|]. now rewrite IH.
Qed.

Lemma setKey_names k v ks :
  map fst (setKey k v ks) = map fst ks \/
  (~ In k (map fst ks) /\ map fst (setKey k v ks) = map fst ks ++ [k]).
Proof.
  destruct (in_dec string_dec k (map fst ks)) as [Hin|Hn].
  - left. now apply setKey_names_known.
  - right. split; [assumption|]. rewrite setKey_fresh by assumption.
    now rewrite map_app.
Qed.

Lemma In_setKey_names k v ks : In k (map fst (setKey k v ks)).
Proof.
  induction ks as [|[k' v'] t IH]; simpl.
  - now left.
  - case_eqb k' k; simpl; [now left|now right].
Qed.

Lemma In_setKey_names_old k v k0 ks :
  In k0 (map fst ks) -> In k0 (map fst (setKey k v ks)).
Proof.
  intros Hin. destruct (setKey_names k v ks) as [E|[_ E]]; rewrite E; [assumption|].
  apply in_or_app. now left.
Qed.

Lemma NoDup_snoc {A : Type} (l : list A) (a : A) :
  NoDup l -> ~ In a l -> NoDup (l ++ [a]).
Proof.
  intros Hl Hn. induction Hl as [|x l Hx Hl IH]; simpl.
  - constructor; [intros []|constructor].
  - constructor.
    + intros H. apply in_app_or in H. destruct H as [H|[H|[]]].
      * now apply Hx.
      * subst. apply Hn. now left.
    + apply IH. intros H. apply Hn. now right.
Qed.

Lemma setKey_NoDup k v ks : NoDup (map fst ks) -> NoDup (map fst (setKey k v ks)).
Proof.
  intros Hnd. destruct (setKey_names k v ks) as [E|[Hn E]]; rewrite E.
  - assumption.
  - now apply NoDup_snoc.
Qed.

Lemma setKey_nonempty k v ks :
  k <> "" -> Forall (fun x => x <> "") (map fst ks) ->
  Forall (fun x => x <> "") (map fst (setKey k v ks)).
Proof.
  intros Hk Hall. destruct (setKey_names k v ks) as [E|[_ E]]; rewrite E.
  - assumption.
  - apply Forall_app. split; [assumption|]. now constructor.
Qed.

Lemma withKey_wf k v s : k <> "" -> wfSection s -> wfSection (withKey k v s).
Proof.
  intros Hk (Hn & Hnd & Hall). unfold wfSection, withKey, KeyStrings in *. simpl.
  repeat split.
  - assumption.
  - now apply setKey_NoDup.
  - now apply setKey_nonempty.
Qed.

(** *** Sections *)

Lemma lookupSection_Some name f s :
  lookupSection name f = Some s -> Name s = name /\ In s f.
Proof.
  induction f as [|x t IH]; simpl; [discriminate|].
  case_eqb (Name x) name.
  - intros [= <-]. split; [assumption|now left].
  - intros H. destruct (IH H). split; [assumption|now right].
Qed.

Lemma lookupSection_None name f :
  lookupSection name f = None <-> ~ In name (SectionStrings f).
Proof.
  unfold SectionStrings. induction f as [|x t IH]; simpl.
  - split; [intros _ []|reflexivity].
  - case_eqb (Name x) name.
    + split; [discriminate|]. intros H. exfalso. apply H. now left.
    + rewrite IH. split.
      * intros H [H1|H1]; [congruence|now apply H].
      * intros H H1. apply H. now right.
Qed.

Lemma lookupSection_In name f :
  In name (SectionStrings f) -> exists s, lookupSection name f = Some s.
Proof.
  intros Hin. destruct (lookupSection name f) as [s|] eqn:E; [now exists s|].
  apply lookupSection_None in E. contradiction.
Qed.

Lemma lookupSection_snoc name f s :
  lookupSection name (f ++ [s]) =
  match lookupSection name f with
  | Some x => Some x
  | None => if String.eqb (Name s) name then Some s else None
  end.
Proof.
  induction f as [|x t IH]; simpl; [reflexivity|].
  now destruct (String.eqb (Name x) name).
Qed.

Lemma alterSection_names name g f :
  (forall s, Name (g s) = Name s) ->
  SectionStrings (alterSection name g f) = SectionStrings f.
Proof.
  intros Hg. unfold SectionStrings. induction f as [|x t IH]; simpl; [reflexivity|].
  destruct (String.eqb (Name x) name); simpl.
  - now rewrite Hg.
  - now rewrite IH.
Qed.

Lemma lookupSection_alter_same name g f :
  (forall s, Name (g s) = Name s) ->
  lookupSection name (alterSection name g f) = option_map g (lookupSection name f).
Proof.
  intros Hg. induction f as [|x t IH]; simpl; [reflexivity|].
  case_eqb (Name x) name; simpl.
  - rewrite Hg. subst. now rewrite String.eqb_refl.
  - apply String.eqb_neq in E. now rewrite E.
Qed.

Lemma lookupSection_alter_other name0 name g f :
  (forall s, Name (g s) = Name s) -> name0 <> name ->
  lookupSection name0 (alterSection name g f) = lookupSection name0 f.
Proof.
  intros Hg Hne. induction f as [|x t IH]; simpl; [reflexivity|].
  case_eqb (Name x) name; simpl.
  - rewrite Hg. case_eqb (Name x) name0; [congruence|reflexivity].
  - now rewrite IH.
Qed.

Lemma alterSection_Forall (P : SectionT -> Prop) name g f :
  (forall s, P s -> P (g s)) -> Forall P f -> Forall P (alterSection name g f).
Proof.
  intros Hg Hall. induction Hall as [|x t Hx Ht IH]; simpl; [constructor|].
  destruct (String.eqb (Name x) name); constructor; auto.
Qed.

Lemma alterSection_last name g pre s :
  ~ In name (SectionStrings pre) -> Name s = name ->
  alterSection name g (pre ++ [s]) = pre ++ [g s].
Proof.
  unfold SectionStrings. intros Hn Hs. induction pre as [|x t IH]; simpl.
  - subst. now rewrite String.eqb_refl.
  - case_eqb (Name x) name.
    + exfalso. apply Hn. now left.
    + rewrite IH; [reflexivity|]. intros H. apply Hn. now right.
Qed.

(** *** Well-formed files *)

Lemma wf_Empty : wf Empty.
Proof.
  unfold wf, Empty, newSection. split; [|split].
  - now exists [], [].
  - simpl. constructor; [intros []|constructor].
  - constructor; [|constructor]. unfold wfSection, KeyStrings. simpl.
    repeat split; [discriminate|constructor|constructor].
Qed.

Lemma NewSection_wf f name f' : wf f -> NewSection f name = Some f' -> wf f'.
Proof.
  intros (Hd & Hnd & Hall). unfold NewSection.
  case_eqb name ""; [discriminate|].
  destruct (lookupSection name f) eqn:El; intros [= <-].
  - unfold wf. auto.
  - apply lookupSection_None in El. unfold wf. split; [|split].
    + destruct Hd as (ks & t & ->). now exists ks, (t ++ [newSection name]).
    + unfold SectionStrings in *. rewrite map_app. simpl. now apply NoDup_snoc.
    + apply Forall_app. split; [assumption|]. constructor; [|constructor].
      unfold wfSection, KeyStrings. simpl. repeat split; [assumption|constructor|constructor].
Qed.

Lemma NewKey_wf f sec k v f' : wf f -> NewKey f sec k v = Some f' -> wf f'.
Proof.
  intros (Hd & Hnd & Hall). unfold NewKey.
  case_eqb k ""; [discriminate|]. intros [= <-]. unfold wf. split; [|split].
  - destruct Hd as (ks & t & ->). cbn [alterSection Name].
    destruct (String.eqb DEFAULT_SECTION sec); unfold withKey; cbn [Name keys]; eauto.
  - now rewrite alterSection_names.
  - apply alterSection_Forall; [|assumption]. intros s. now apply withKey_wf.
Qed.

Lemma parse_wf ls : forall cur f f', wf f -> parse ls cur f = Some f' -> wf f'.
Proof.
  induction ls as [|[n|k v] t IH]; simpl; intros cur f f' Hwf.
  - now intros [= <-].
  - destruct (NewSection f n) as [f1|] eqn:E; [|discriminate].
    apply IH. eapply NewSection_wf; eassumption.
  - destruct (NewKey f cur k v) as [f1|] eqn:E; [|discriminate].
    apply IH. eapply NewKey_wf; eassumption.
Qed.

Lemma LoadData_wf ls f : LoadData ls = Some f -> wf f.
Proof. apply parse_wf, wf_Empty. Qed.

(** *** Writing a file and loading it again *)

Lemma parse_keyLines kvs : forall rest cur pre ks,
  ~ In cur (SectionStrings pre) ->
  NoDup (map fst ks ++ map fst kvs) ->
  Forall (fun k => k <> "") (map fst kvs) ->
  parse (map (fun kv => KeyValue (fst kv) (snd kv)) kvs ++ rest) cur
        (pre ++ [mkSection cur ks])
  = parse rest cur (pre ++ [mkSection cur (ks ++ kvs)]).
Proof.
  induction kvs as [|[k v] t IH]; intros rest cur pre ks Hpre Hnd Hne.
  - simpl. now rewrite app_nil_r.
  - cbn [map fst snd app parse]. inversion Hne as [|? ? Hk Ht]; subst.
    unfold NewKey. apply String.eqb_neq in Hk. rewrite Hk.
    rewrite alterSection_last by (assumption || reflexivity).
    unfold withKey. cbn [Name keys].
    assert (Hfresh : ~ In k (map fst ks)).
    { intros Hin. apply NoDup_remove_2 in Hnd. apply Hnd.
      apply in_or_app. now left. }
    rewrite setKey_fresh by assumption.
    rewrite IH.
    + now rewrite <- app_assoc.
    + assumption.
    + rewrite map_app. cbn [map fst]. now rewrite <- app_assoc.
    + assumption.
Qed.

Lemma parse_writeSections t : forall f i cur,
  NoDup (SectionStrings f ++ SectionStrings t) ->
  Forall wfSection t ->
  parse (writeSections (S i) t) cur f = Some (f ++ t).
Proof.
  induction t as [|s t IH]; intros f i cur Hnd Hall.
  - simpl. now rewrite app_nil_r.
  - inversion Hall as [|? ? Hs Ht]; subst. destruct Hs as (Hname & Hkeys & Hne).
    cbn [writeSections Nat.eqb app parse].
    assert (Hfresh : ~ In (Name s) (SectionStrings f)).
    { intros Hin. cbn [SectionStrings map] in Hnd. apply NoDup_remove_2 in Hnd.
      apply Hnd. apply in_or_app. now left. }
    unfold NewSection. apply String.eqb_neq in Hname. rewrite Hname.
    apply lookupSection_None in Hfresh. rewrite Hfresh.
    apply lookupSection_None in Hfresh.
    unfold keyLines, newSection.
    rewrite parse_keyLines; [|assumption|exact Hkeys|exact Hne].
    cbn [app]. destruct s as [n ks]. cbn [Name keys].
    rewrite IH.
    + now rewrite <- app_assoc.
    + unfold SectionStrings in *. rewrite map_app. cbn [map Name] in *.
      now rewrite <- app_assoc.
    + assumption.
Qed.

(** A loaded file that is written and loaded again is the same file. *)
Lemma LoadData_WriteTo f : wf f -> LoadData (WriteTo f) = Some f.
Proof.
  intros ((ks & t & ->) & Hnd & Hall).
  inversion Hall as [|? ? Hs Ht]; subst. destruct Hs as (_ & Hkeys & Hne).
  unfold LoadData, WriteTo, Empty, newSection. cbn [writeSections Nat.eqb keyLines keys].
  change [mkSection DEFAULT_SECTION []] with ([] ++ [mkSection DEFAULT_SECTION []]).
  unfold keyLines. cbn [keys].
  rewrite parse_keyLines; [|intros []|exact Hkeys|exact Hne].
  cbn [app]. now rewrite parse_writeSections.
Qed.

End IniFacts.

(** * Facts about [WriteAWSCredentials] *)

Module WriteFacts.
Import ini IniFacts.

Lemma alterSection_compose name g h f :
  (forall s, Name (g s) = Name s) ->
  alterSection name h (alterSection name g f) = alterSection name (fun s => h (g s)) f.
Proof.
  intros Hg. induction f as [|x t IH]; simpl; [reflexivity|].
  case_eqb (Name x) name; simpl.
  - rewrite Hg. subst. now rewrite String.eqb_refl.
  - apply String.eqb_neq in E. rewrite E. now rewrite IH.
Qed.

(** The document that is saved: the loaded one, with the profile's section
    added at the end when it was missing, and the three keys set in it. *)
Lemma document_inr c p w cpath doc :
  WriteAWSCredentials_document c p w = inr (cpath, doc) ->
  exists home f0 f1,
    currentUser w = Some home /\
    cpath = credentialsPath home /\
    Load (disk w) cpath = Some f0 /\
    ((f1 = f0 /\ In (sectionName p) (SectionStrings f0)) \/
     (f1 = f0 ++ [newSection (sectionName p)] /\ ~ In (sectionName p) (SectionStrings f0))) /\
    doc = alterSection (sectionName p) (withCredentials c) f1.
Proof.
  unfold WriteAWSCredentials_document.
  destruct (currentUser w) as [home|]; [|discriminate]. cbn [orElse bindE].
  destruct (Load (disk w) (credentialsPath home)) as [f0|] eqn:EL; [|discriminate].
  cbn [orElse bindE].
  assert (Hf1 : forall f1,
    (match GetSection f0 p with
     | Some _ => inr f0
     | None => orElse (NewSection f0 p) ErrCreateProfile
     end) = inr f1 ->
    (f1 = f0 /\ In (sectionName p) (SectionStrings f0)) \/
    (f1 = f0 ++ [newSection (sectionName p)] /\ ~ In (sectionName p) (SectionStrings f0))).
  { intros f1. unfold GetSection.
    destruct (lookupSection (sectionName p) f0) as [s|] eqn:Eg.
    - intros [= <-]. left. split; [reflexivity|].
      apply lookupSection_Some in Eg. destruct Eg as [<- Hin].
      unfold SectionStrings. now apply in_map.
    - unfold NewSection, sectionName in *. case_eqb p ""; [discriminate|].
      rewrite Eg. intros [= <-]. right. split; [reflexivity|].
      now apply lookupSection_None. }
  destruct (match GetSection f0 p with
            | Some _ => inr f0
            | None => orElse (NewSection f0 p) ErrCreateProfile
            end) as [e|f1] eqn:E1; [discriminate|].
  specialize (Hf1 f1 eq_refl). cbn [bindE].
  destruct (GetSection f1 p) as [prof|] eqn:Eg; [|discriminate].
  cbn [orElse bindE]. apply lookupSection_Some in Eg. destruct Eg as [Hn _].
  rewrite Hn. unfold NewKey. cbn [String.eqb Ascii.eqb Bool.eqb orElse bindE].
  intros [= <- <-]. exists home, f0, f1. repeat split; try assumption.
  rewrite !alterSection_compose by reflexivity. reflexivity.
Qed.

Lemma threeKeys_managed c ks :
  lookupKey "aws_access_key_id" (threeKeys c ks) = Some (AccessKeyId c) /\
  lookupKey "aws_secret_access_key" (threeKeys c ks) = Some (SecretAccessKey c) /\
  lookupKey "aws_session_token" (threeKeys c ks) = Some (SessionToken c).
Proof.
  unfold threeKeys. repeat split.
  - rewrite !lookupKey_setKey_other by discriminate. apply lookupKey_setKey_same.
  - rewrite lookupKey_setKey_other by discriminate. apply lookupKey_setKey_same.
  - apply lookupKey_setKey_same.
Qed.

Lemma threeKeys_foreign c ks k :
  ~ In k managedKeys -> lookupKey k (threeKeys c ks) = lookupKey k ks.
Proof.
  unfold managedKeys. cbn [In]. intros Hk. unfold threeKeys.
  rewrite !lookupKey_setKey_other; [reflexivity| | |]; intros ->; apply Hk; auto.
Qed.

Lemma threeKeys_names_old c ks k :
  In k (map fst ks) -> In k (map fst (threeKeys c ks)).
Proof. intros H. unfold threeKeys. now do 3 apply In_setKey_names_old. Qed.

Lemma threeKeys_In_managed c ks k :
  In k managedKeys -> In k (map fst (threeKeys c ks)).
Proof.
  unfold managedKeys, threeKeys. cbn [In]. intros [<-|[<-|[<-|[]]]].
  - do 2 apply In_setKey_names_old. apply In_setKey_names.
  - apply In_setKey_names_old. apply In_setKey_names.
  - apply In_setKey_names.
Qed.

Lemma withCredentials_wf c s : wfSection s -> wfSection (withCredentials c s).
Proof.
  intros H. change (withCredentials c s) with
    (withKey "aws_session_token" (SessionToken c)
       (withKey "aws_secret_access_key" (SecretAccessKey c)
          (withKey "aws_access_key_id" (AccessKeyId c) s))).
  repeat (apply withKey_wf; [discriminate|]). assumption.
Qed.

Lemma wf_snoc f name : wf f -> name <> "" -> ~ In name (SectionStrings f) ->
  wf (f ++ [newSection name]).
Proof.
  intros Hwf Hne Hn. apply (NewSection_wf f name); [assumption|].
  unfold NewSection. apply String.eqb_neq in Hne. rewrite Hne.
  apply lookupSection_None in Hn. now rewrite Hn.
Qed.

Lemma sectionName_nonempty p : sectionName p <> "".
Proof. unfold sectionName. case_eqb p ""; [discriminate|assumption]. Qed.

Lemma alter_withCredentials_wf c name f :
  wf f -> wf (alterSection name (withCredentials c) f).
Proof.
  intros (Hd & Hnd & Hall). unfold wf. split; [|split].
  - destruct Hd as (ks & t & ->). cbn [alterSection Name].
    destruct (String.eqb DEFAULT_SECTION name); unfold withCredentials; cbn [Name keys]; eauto.
  - now rewrite alterSection_names.
  - apply alterSection_Forall; [|assumption]. intros s. apply withCredentials_wf.
Qed.

Lemma Load_store path ls d : Load (store path (Some ls) d) path = LoadData ls.
Proof. unfold Load, store. now rewrite String.eqb_refl. Qed.

(** A call that returns [nil]: the document it saved, and what it was made
    from. *)
Lemma success_inv c p w w' :
  WriteAWSCredentials c p w = (w', None) ->
  exists home f0 f1,
    currentUser w = Some home /\
    Load (disk w) (credentialsPath home) = Some f0 /\
    ((f1 = f0 /\ In (sectionName p) (SectionStrings f0)) \/
     (f1 = f0 ++ [newSection (sectionName p)] /\ ~ In (sectionName p) (SectionStrings f0))) /\
    wf f1 /\
    w' = mkWorld (currentUser w)
           (store (credentialsPath home)
              (Some (WriteTo (alterSection (sectionName p) (withCredentials c) f1))) (disk w))
           None /\
    Load (disk w') (credentialsPath home)
      = Some (alterSection (sectionName p) (withCredentials c) f1).
Proof.
  unfold WriteAWSCredentials.
  destruct (WriteAWSCredentials_document c p w) as [e|[cpath doc]] eqn:Ed; [discriminate|].
  apply document_inr in Ed. destruct Ed as (home & f0 & f1 & Hu & -> & HL & Hf1 & ->).
  unfold SaveTo. destruct (saveFault w) as [c0|] eqn:Ef; [discriminate|].
  intros [= <-]. exists home, f0, f1.
  assert (Hwf0 : wf f0).
  { unfold Load in HL. destruct (disk w (credentialsPath home)); [|discriminate].
    eapply LoadData_wf; eassumption. }
  assert (Hwf1 : wf f1).
  { destruct Hf1 as [[-> _]|[-> Hn]]; [assumption|].
    apply wf_snoc; [assumption|apply sectionName_nonempty|assumption]. }
  split; [assumption|]. split; [assumption|]. split; [assumption|].
  split; [assumption|]. split; [reflexivity|].
  cbn [disk]. rewrite Load_store. apply LoadData_WriteTo.
  now apply alter_withCredentials_wf.
Qed.

(** *** Writing the same keys a second time *)

Lemma setKey_setKey_same k v1 v2 ks : setKey k v2 (setKey k v1 ks) = setKey k v2 ks.
Proof.
  induction ks as [|[x y] t IH]; simpl.
  - now rewrite String.eqb_refl.
  - case_eqb x k; simpl.
    + subst. now rewrite String.eqb_refl.
    + apply String.eqb_neq in E. rewrite E. now rewrite IH.
Qed.

Lemma setKey_comm_known k v k' v' ks :
  k <> k' -> In k (map fst ks) ->
  setKey k v (setKey k' v' ks) = setKey k' v' (setKey k v ks).
Proof.
  intros Hne. induction ks as [|[x y] t IH]; simpl; [contradiction|].
  intros Hin. case_eqb x k'; case_eqb x k; simpl; subst.
  - congruence.
  - apply String.eqb_neq in E0. rewrite E0. now rewrite String.eqb_refl.
  - rewrite String.eqb_refl. apply String.eqb_neq in E. now rewrite E.
  - apply String.eqb_neq in E, E0. rewrite E, E0.
    destruct Hin as [Hin|Hin]; [apply String.eqb_neq in E0; congruence|].
    now rewrite IH.
Qed.

Lemma threeKeys_again c1 c2 ks : threeKeys c2 (threeKeys c1 ks) = threeKeys c2 ks.
Proof.
  unfold threeKeys.
  set (A := "aws_access_key_id"). set (B := "aws_secret_access_key").
  set (C := "aws_session_token").
  rewrite (setKey_comm_known A _ C); [|discriminate|].
  2:{ apply In_setKey_names_old, In_setKey_names. }
  rewrite (setKey_comm_known A _ B); [|discriminate|apply In_setKey_names].
  rewrite setKey_setKey_same.
  rewrite (setKey_comm_known B _ C); [|discriminate|apply In_setKey_names].
  now rewrite !setKey_setKey_same.
Qed.

Lemma alterSection_ext name g h f :
  (forall s, g s = h s) -> alterSection name g f = alterSection name h f.
Proof.
  intros Hgh. induction f as [|x t IH]; simpl; [reflexivity|].
  now rewrite Hgh, IH.
Qed.

Lemma alter_withCredentials_again c1 c2 name f :
  alterSection name (withCredentials c2) (alterSection name (withCredentials c1) f)
  = alterSection name (withCredentials c2) f.
Proof.
  rewrite alterSection_compose by reflexivity. apply alterSection_ext.
  intros s. unfold withCredentials. cbn [Name keys]. now rewrite threeKeys_again.
Qed.

(** The save error comes from the save only. *)
Lemma document_not_ErrSave c p w : WriteAWSCredentials_document c p w <> inl ErrSave.
Proof.
  unfold WriteAWSCredentials_document.
  destruct (currentUser w) as [home|]; cbn [orElse bindE]; [|discriminate].
  destruct (Load (disk w) (credentialsPath home)) as [f0|]; cbn [orElse bindE]; [|discriminate].
  destruct (GetSection f0 p) as [s0|].
  2:{ destruct (NewSection f0 p) as [f1|]; cbn [orElse bindE]; [|discriminate].
      destruct (GetSection f1 p) as [prof|]; cbn [orElse bindE]; [|discriminate].
      unfold NewKey. cbn [String.eqb Ascii.eqb Bool.eqb orElse bindE]. discriminate. }
  cbn [bindE].
  destruct (GetSection f0 p) as [prof|]; cbn [orElse bindE]; [|discriminate].
  unfold NewKey. cbn [String.eqb Ascii.eqb Bool.eqb orElse bindE]. discriminate.
Qed.

End WriteFacts.

(** * [WriteAWSCredentials]: what a write keeps, what a repeated write leaves,
      and what an error leaves *)

Import IniFacts WriteFacts.

(** Claim C1.  A call of [WriteAWSCredentials] that returns [nil] leaves, in
    the credentials file, every key of the profile other than the three
    managed ones with the value it had, every section other than the
    profile's exactly as it was, the sections in their order (the profile's is
    added at the end when it was missing), and every other file untouched.
    The profile's section is the one the name designates: the name itself,
    and the default section for the empty name. *)
Theorem WriteAWSCredentials_keeps_foreign c p w w' :
  WriteAWSCredentials c p w = (w', None) ->
  exists home before after,
    currentUser w = Some home /\
    ini.Load (disk w) (credentialsPath home) = Some before /\
    ini.Load (disk w') (credentialsPath home) = Some after /\
    (forall k, ~ In k managedKeys -> profileKey after p k = profileKey before p k) /\
    (forall name, name <> ini.sectionName p ->
       ini.lookupSection name after = ini.lookupSection name before) /\
    (ini.SectionStrings after = ini.SectionStrings before \/
     ini.SectionStrings after = ini.SectionStrings before ++ [ini.sectionName p]) /\
    (forall q, q <> credentialsPath home -> disk w' q = disk w q).
Proof.
  intros H. apply success_inv in H.
  destruct H as (home & f0 & f1 & Hu & HL & Hf1 & Hwf & Hw & HL').
  exists home, f0, (ini.alterSection (ini.sectionName p) (withCredentials c) f1).
  split; [assumption|]. split; [assumption|]. split; [assumption|].
  split; [|split; [|split]].
  - intros k Hk. unfold profileKey, ini.GetSection.
    rewrite lookupSection_alter_same by reflexivity.
    destruct Hf1 as [[-> Hin]|[-> Hn]].
    + destruct (ini.lookupSection (ini.sectionName p) f0) as [s|]; [|reflexivity].
      cbn [option_map withCredentials ini.keys]. now apply threeKeys_foreign.
    + rewrite lookupSection_snoc. apply lookupSection_None in Hn. rewrite Hn.
      cbn [ini.newSection ini.Name]. rewrite String.eqb_refl.
      cbn [option_map withCredentials ini.keys]. now rewrite threeKeys_foreign.
  - intros name Hne. rewrite lookupSection_alter_other by (reflexivity || assumption).
    destruct Hf1 as [[-> Hin]|[-> Hn]]; [reflexivity|].
    rewrite lookupSection_snoc.
    destruct (ini.lookupSection name f0); [reflexivity|].
    cbn [ini.newSection ini.Name].
    destruct (String.eqb (ini.sectionName p) name) eqn:E; [|reflexivity].
    apply String.eqb_eq in E. congruence.
  - rewrite alterSection_names by reflexivity.
    destruct Hf1 as [[-> Hin]|[-> Hn]]; [now left|right].
    unfold ini.SectionStrings. now rewrite map_app.
  - intros q Hq. subst w'. cbn [disk]. unfold ini.store.
    apply String.eqb_neq in Hq. now rewrite Hq.
Qed.

(** Claim C7.  After two calls of [WriteAWSCredentials] for the same profile
    that both return [nil], the credentials file has exactly one section of
    the profile's name, that section has each managed key exactly once and
    no key twice, the three keys hold the values of the second call, and the
    file is the one a single call with the second credentials would have
    left. *)
Theorem WriteAWSCredentials_twice c1 c2 p w w1 w2 :
  WriteAWSCredentials c1 p w = (w1, None) ->
  WriteAWSCredentials c2 p w1 = (w2, None) ->
  exists home after prof,
    currentUser w = Some home /\
    ini.Load (disk w2) (credentialsPath home) = Some after /\
    count_occ string_dec (ini.SectionStrings after) (ini.sectionName p) = 1%nat /\
    NoDup (ini.SectionStrings after) /\
    ini.GetSection after p = Some prof /\
    (forall k, In k managedKeys -> count_occ string_dec (ini.KeyStrings prof) k = 1%nat) /\
    NoDup (ini.KeyStrings prof) /\
    ini.lookupKey "aws_access_key_id" (ini.keys prof) = Some (AccessKeyId c2) /\
    ini.lookupKey "aws_secret_access_key" (ini.keys prof) = Some (SecretAccessKey c2) /\
    ini.lookupKey "aws_session_token" (ini.keys prof) = Some (SessionToken c2) /\
    (forall q, disk w2 q = disk (fst (WriteAWSCredentials c2 p w)) q).
Proof.
  intros H1 H2.
  pose proof (success_inv _ _ _ _ H1) as (home & f0 & f1 & Hu & HL & Hf1 & Hwf1 & Hw1 & HL1).
  pose proof (success_inv _ _ _ _ H2) as (home' & g0 & g1 & Hu' & HL2 & Hg1 & Hwg1 & Hw2 & HL2').
  assert (home' = home) as -> by (subst w1; cbn [currentUser] in Hu'; congruence).
  set (n := ini.sectionName p) in *.
  assert (Hin1 : In n (ini.SectionStrings f1)).
  { destruct Hf1 as [[-> Hin]|[-> Hn]]; [assumption|].
    unfold ini.SectionStrings. rewrite map_app. apply in_or_app. right. now left. }
  assert (Hg : g1 = ini.alterSection n (withCredentials c1) f1).
  { rewrite HL1 in HL2. injection HL2 as <-.
    destruct Hg1 as [[-> _]|[_ Hn]]; [reflexivity|].
    exfalso. apply Hn. now rewrite alterSection_names. }
  rewrite Hg, alter_withCredentials_again in HL2', Hw2.
  set (after := ini.alterSection n (withCredentials c2) f1) in *.
  assert (Hwf : ini.wf after) by now apply alter_withCredentials_wf.
  assert (Hin : In n (ini.SectionStrings after)).
  { unfold after. now rewrite alterSection_names. }
  destruct (lookupSection_In _ _ Hin1) as [s Hs].
  exists home, after, (withCredentials c2 s).
  destruct Hwf as (_ & Hnd & Hall).
  assert (Hprof : ini.lookupSection n after = Some (withCredentials c2 s)).
  { unfold after. rewrite lookupSection_alter_same by reflexivity. now rewrite Hs. }
  assert (Hkeys : NoDup (ini.KeyStrings (withCredentials c2 s))).
  { apply lookupSection_Some in Hprof. destruct Hprof as [_ Hi].
    rewrite Forall_forall in Hall. apply (Hall _ Hi). }
  split; [assumption|]. split; [assumption|].
  split; [now apply NoDup_count_occ'|]. split; [assumption|].
  split; [exact Hprof|].
  split.
  { intros k Hk. apply NoDup_count_occ'; [assumption|].
    now apply threeKeys_In_managed. }
  split; [assumption|].
  destruct (threeKeys_managed c2 (ini.keys s)) as (Ha & Hb & Hc).
  split; [exact Ha|]. split; [exact Hb|]. split; [exact Hc|].
  intros q. rewrite Hw2. subst w1. cbn [currentUser disk].
  unfold WriteAWSCredentials.
  destruct (WriteAWSCredentials_document c2 p w) as [e|[cpath doc]] eqn:Ed.
  - exfalso. revert Ed. unfold WriteAWSCredentials_document.
    rewrite Hu. cbn [orElse bindE]. rewrite HL. cbn [orElse bindE].
    unfold WriteAWSCredentials, WriteAWSCredentials_document in H1.
    rewrite Hu in H1. cbn [orElse bindE] in H1. rewrite HL in H1. cbn [orElse bindE] in H1.
    destruct (match ini.GetSection f0 p with
              | Some _ => inr f0
              | None => orElse (ini.NewSection f0 p) ErrCreateProfile
              end) as [e1|h1]; [discriminate|].
    cbn [bindE] in *.
    destruct (ini.GetSection h1 p) as [prof|]; [|discriminate].
    cbn [orElse bindE]. unfold ini.NewKey.
    cbn [String.eqb Ascii.eqb Bool.eqb orElse bindE]. discriminate.
  - apply document_inr in Ed.
    destruct Ed as (home2 & h0 & h1 & Hu2 & -> & HLh & Hh1 & ->).
    assert (home2 = home) as -> by congruence.
    assert (h0 = f0) as -> by congruence.
    assert (h1 = f1) as ->.
    { destruct Hf1 as [[-> Hi]|[-> Hn]]; destruct Hh1 as [[-> Hi']|[-> Hn']];
        try reflexivity; contradiction. }
    assert (Ef : saveFault w = None).
    { unfold WriteAWSCredentials in H1.
      destruct (WriteAWSCredentials_document c1 p w) as [e|[cp d]]; [discriminate|].
      unfold ini.SaveTo in H1. destruct (saveFault w); [discriminate|reflexivity]. }
    unfold ini.SaveTo. rewrite Ef. cbn [fst disk]. fold n. fold after.
    unfold ini.store. now destruct (String.eqb q (credentialsPath home)).
Qed.

(** A credentials file with a default section, a profile ["work"] that has a
    foreign key and a stale access key, and another profile. *)
Definition home0 : string := "/home/u".

Definition file0 : list ini.Line :=
  [ ini.KeyValue "output" "json";
    ini.Header "work";
    ini.KeyValue "region" "us-east-1";
    ini.KeyValue "aws_access_key_id" "OLD";
    ini.Header "other";
    ini.KeyValue "aws_session_token" "T0" ].

Definition world0 : World :=
  mkWorld (Some home0) (ini.store (credentialsPath home0) (Some file0) (fun _ => None)) None.

Definition creds1 : Credentials := mkCredentials "AKIA1" "secret1" "token1" "2016-01-01".
Definition creds2 : Credentials := mkCredentials "AKIA2" "secret2" "token2" "2016-01-02".

(** The file after a write to ["work"]: the access key is overwritten where
    it stood, the two missing keys follow, [region] and the other sections
    stay. *)
Example upsert_scenario :
  snd (WriteAWSCredentials creds1 "work" world0) = None /\
  disk (fst (WriteAWSCredentials creds1 "work" world0)) (credentialsPath home0)
  = Some [ ini.KeyValue "output" "json";
           ini.Header "work";
           ini.KeyValue "region" "us-east-1";
           ini.KeyValue "aws_access_key_id" "AKIA1";
           ini.KeyValue "aws_secret_access_key" "secret1";
           ini.KeyValue "aws_session_token" "token1";
           ini.Header "other";
           ini.KeyValue "aws_session_token" "T0" ].
Proof. split; reflexivity. Qed.

(** The empty profile name designates the default section. *)
Example upsert_empty_profile :
  disk (fst (WriteAWSCredentials creds1 "" world0)) (credentialsPath home0)
  = Some [ ini.KeyValue "output" "json";
           ini.KeyValue "aws_access_key_id" "AKIA1";
           ini.KeyValue "aws_secret_access_key" "secret1";
           ini.KeyValue "aws_session_token" "token1";
           ini.Header "work";
           ini.KeyValue "region" "us-east-1";
           ini.KeyValue "aws_access_key_id" "OLD";
           ini.Header "other";
           ini.KeyValue "aws_session_token" "T0" ].
Proof. reflexivity. Qed.

(** The same world, where the save fails after the file has been cut to
    nothing. *)
Definition world0_truncating : World :=
  mkWorld (currentUser world0) (disk world0) (Some (Some [])).

Lemma WriteAWSCredentials_keeps_foreign_witness :
  WriteAWSCredentials creds1 "work" world0
    = (fst (WriteAWSCredentials creds1 "work" world0), None) /\
  exists home before after,
    currentUser world0 = Some home /\
    ini.Load (disk world0) (credentialsPath home) = Some before /\
    ini.Load (disk (fst (WriteAWSCredentials creds1 "work" world0))) (credentialsPath home)
      = Some after /\
    (forall k, ~ In k managedKeys -> profileKey after "work" k = profileKey before "work" k) /\
    (forall name, name <> ini.sectionName "work" ->
       ini.lookupSection name after = ini.lookupSection name before) /\
    (ini.SectionStrings after = ini.SectionStrings before \/
     ini.SectionStrings after = ini.SectionStrings before ++ [ini.sectionName "work"]) /\
    (forall q, q <> credentialsPath home ->
       disk (fst (WriteAWSCredentials creds1 "work" world0)) q = disk world0 q).
Proof.
  split; [reflexivity|].
  apply (WriteAWSCredentials_keeps_foreign creds1 "work" world0). reflexivity.
Defined.

Lemma WriteAWSCredentials_twice_witness :
  exists home after prof,
    currentUser world0 = Some home /\
    ini.Load (disk (fst (WriteAWSCredentials creds2 "work"
                           (fst (WriteAWSCredentials creds1 "work" world0)))))
             (credentialsPath home) = Some after /\
    count_occ string_dec (ini.SectionStrings after) (ini.sectionName "work") = 1%nat /\
    NoDup (ini.SectionStrings after) /\
    ini.GetSection after "work" = Some prof /\
    (forall k, In k managedKeys -> count_occ string_dec (ini.KeyStrings prof) k = 1%nat) /\
    NoDup (ini.KeyStrings prof) /\
    ini.lookupKey "aws_access_key_id" (ini.keys prof) = Some (AccessKeyId creds2) /\
    ini.lookupKey "aws_secret_access_key" (ini.keys prof) = Some (SecretAccessKey creds2) /\
    ini.lookupKey "aws_session_token" (ini.keys prof) = Some (SessionToken creds2) /\
    (forall q,
       disk (fst (WriteAWSCredentials creds2 "work"
                    (fst (WriteAWSCredentials creds1 "work" world0)))) q
       = disk (fst (WriteAWSCredentials creds2 "work" world0)) q).
Proof.
  apply (WriteAWSCredentials_twice creds1 creds2 "work" world0
           (fst (WriteAWSCredentials creds1 "work" world0))); reflexivity.
Defined.

(** Claim C2 as stated fails: in this world the call returns the save error
    and the credentials file is not what it was before the call (it is
    empty, and holds no credentials either). *)
Lemma WriteAWSCredentials_error_changes_file :
  snd (WriteAWSCredentials creds1 "work" world0_truncating) = Some ErrSave /\
  disk world0_truncating (credentialsPath home0) = Some file0 /\
  disk (fst (WriteAWSCredentials creds1 "work" world0_truncating)) (credentialsPath home0)
    = Some [].
Proof. repeat split. Qed.

(** Claim C2, amended.  [WriteAWSCredentials] touches the files in one place
    only, the final [SaveTo].  When it returns [nil], the credentials file
    holds the saved document, and in it the profile has the three fresh
    values.  When it returns any error but the save error, the world is
    exactly what it was.  When it returns the save error, every other file
    is what it was and the credentials file is what the failed [SaveTo]
    left: the previous content if that save failed cleanly, and then nothing
    has changed. *)
Theorem WriteAWSCredentials_error_cases c p w :
  match snd (WriteAWSCredentials c p w) with
  | None =>
      exists home doc,
        currentUser w = Some home /\
        disk (fst (WriteAWSCredentials c p w)) (credentialsPath home)
          = Some (ini.WriteTo doc) /\
        ini.Load (disk (fst (WriteAWSCredentials c p w))) (credentialsPath home) = Some doc /\
        profileKey doc p "aws_access_key_id" = Some (AccessKeyId c) /\
        profileKey doc p "aws_secret_access_key" = Some (SecretAccessKey c) /\
        profileKey doc p "aws_session_token" = Some (SessionToken c)
  | Some ErrSave =>
      exists home remains,
        currentUser w = Some home /\
        saveFault w = Some remains /\
        disk (fst (WriteAWSCredentials c p w)) (credentialsPath home) = remains /\
        (forall q, q <> credentialsPath home ->
           disk (fst (WriteAWSCredentials c p w)) q = disk w q) /\
        (remains = disk w (credentialsPath home) ->
           forall q, disk (fst (WriteAWSCredentials c p w)) q = disk w q)
  | Some _ => fst (WriteAWSCredentials c p w) = w
  end.
Proof.
  destruct (WriteAWSCredentials c p w) as [w' r] eqn:EW. cbn [fst snd].
  destruct r as [e|].
  - unfold WriteAWSCredentials in EW.
    destruct (WriteAWSCredentials_document c p w) as [e'|[cpath doc]] eqn:Ed.
    + injection EW as <- <-.
      pose proof (document_not_ErrSave c p w) as He.
      destruct e'; congruence.
    + apply document_inr in Ed.
      destruct Ed as (home & f0 & f1 & Hu & -> & HL & Hf1 & ->).
      unfold ini.SaveTo in EW. destruct (saveFault w) as [remains|] eqn:Ef; [|discriminate].
      injection EW as <- <-.
      exists home, remains. cbn [disk]. unfold ini.store.
      split; [assumption|]. split; [reflexivity|].
      split; [now rewrite String.eqb_refl|]. split.
      * intros q Hq. apply String.eqb_neq in Hq. now rewrite Hq.
      * intros -> q.
        destruct (String.eqb q (credentialsPath home)) eqn:E; [|reflexivity].
        apply String.eqb_eq in E. now subst.
  - pose proof (success_inv _ _ _ _ EW) as (home & f0 & f1 & Hu & HL & Hf1 & Hwf & Hw & HL').
    exists home, (ini.alterSection (ini.sectionName p) (withCredentials c) f1).
    split; [assumption|]. split.
    { rewrite Hw. cbn [disk]. unfold ini.store. now rewrite String.eqb_refl. }
    split; [assumption|].
    assert (Hin : In (ini.sectionName p) (ini.SectionStrings f1)).
    { destruct Hf1 as [[-> Hin]|[-> Hn]]; [assumption|].
      unfold ini.SectionStrings. rewrite map_app. apply in_or_app. right. now left. }
    destruct (lookupSection_In _ _ Hin) as [s Hs].
    unfold profileKey, ini.GetSection.
    rewrite lookupSection_alter_same by reflexivity. rewrite Hs.
    cbn [option_map withCredentials ini.keys]. apply threeKeys_managed.
Qed.

(** * Facts about the role selection *)

Module SelectFacts.

Lemma pow63 : 2 ^ 63 = 9223372036854775808.
Proof. reflexivity. Qed.

Lemma pow64 : 2 ^ 64 = 18446744073709551616.
Proof. reflexivity. Qed.

Lemma wrap64_small z : min_int <= z <= max_int -> wrap64 z = z.
Proof.
  unfold wrap64, min_int, max_int. rewrite pow63, pow64. intros H.
  rewrite Z.mod_small; lia.
Qed.

Lemma sub64_min : sub64 min_int 1 = max_int.
Proof. reflexivity. Qed.

Lemma scanInt_range line i : scanInt line = Some i -> min_int <= i <= max_int.
Proof.
  unfold scanInt.
  destruct (match skipSpace line with
            | String "-" t => option_map Z.opp (scanNumber t None)
            | String "+" t => scanNumber t None
            | _ => scanNumber (skipSpace line) None
            end) as [z|]; [|discriminate].
  destruct (inRange64 z) eqn:E; [|discriminate]. intros [= <-].
  unfold inRange64 in E. apply andb_true_iff in E. lia.
Qed.

Lemma index_out {A : Type} (s : list A) j : ~ (0 <= j < len s) -> index s j = Panic j.
Proof.
  intros H. unfold index.
  destruct ((0 <=? j) && (j <? len s)) eqn:E; [|reflexivity].
  apply andb_true_iff in E. lia.
Qed.

Lemma index_in {A : Type} (s : list A) j a :
  0 <= j -> nth_error s (Z.to_nat j) = Some a -> index s j = Ok a.
Proof.
  intros Hj Hn. unfold index.
  assert (Hlt : (Z.to_nat j < length s)%nat) by (apply nth_error_Some; congruence).
  assert (E : (0 <=? j) && (j <? len s) = true).
  { unfold len. apply andb_true_iff. lia. }
  now rewrite E, Hn.
Qed.

Section WithRoleMethods.
Context {RM : RoleMethods}.

(** The menu reads nothing. *)
Lemma main_menuMapped_stdin m roles : forall n t,
  stdin (main_menuMapped m n roles t) = stdin t.
Proof.
  induction roles as [|r rest IH]; intros n t; simpl; [reflexivity|].
  rewrite IH. now destruct (ini.HasKey m (AccountId r)).
Qed.

Lemma main_menuPlain_stdin roles : forall n t,
  stdin (main_menuPlain n roles t) = stdin t.
Proof.
  induction roles as [|r rest IH]; intros n t; simpl; [reflexivity|].
  now rewrite IH.
Qed.

Lemma main_menu_stdin cfg roles t : stdin (main_menu cfg roles t) = stdin t.
Proof.
  unfold main_menu. destruct (ini.GetSection cfg "account_map").
  - apply main_menuMapped_stdin.
  - apply main_menuPlain_stdin.
Qed.

(** What [main_choose] does with the line it reads. *)
Lemma main_choose_line roles t line rest :
  stdin t = line :: rest ->
  fst (main_choose roles t) =
  match scanInt line with
  | None => Exit InvalidSelection
  | Some i =>
      if i >? add64 (len roles) 1 then Exit InvalidSelection
      else index roles (sub64 i 1)
  end.
Proof.
  intros Hin. unfold main_choose, Scanf_d, Printf. cbn [stdin]. rewrite Hin.
  destruct (scanInt line) as [i|]; [|reflexivity].
  now destruct (i >? add64 (len roles) 1).
Qed.

Lemma main_findRole_found a roles : In a roles -> main_findRole a roles = a.
Proof.
  induction roles as [|r rest IH]; simpl; [contradiction|].
  destruct (String.eqb a r) eqn:E.
  - apply String.eqb_eq in E. now subst.
  - apply String.eqb_neq in E. intros [H|H]; [congruence|now apply IH].
Qed.

Lemma main_findRole_missing a roles : ~ In a roles -> main_findRole a roles = "".
Proof.
  induction roles as [|r rest IH]; simpl; [reflexivity|].
  intros Hn. destruct (String.eqb a r) eqn:E.
  - apply String.eqb_eq in E. exfalso. apply Hn. now left.
  - apply IH. intros H. apply Hn. now right.
Qed.

Definition prompt : string := "Enter the ID# of the role you want to assume: ".

Lemma main_choose_stdout roles t :
  exists more, stdout (snd (main_choose roles t)) = stdout t ++ prompt :: more.
Proof.
  unfold main_choose, Scanf_d, Printf. cbn [stdin stdout].
  destruct (stdin t) as [|line rest].
  - eexists. cbn [snd stdout]. rewrite <- app_assoc. reflexivity.
  - destruct (scanInt line) as [i|].
    + destruct (i >? add64 (len roles) 1); eexists; cbn [snd stdout].
      * rewrite <- app_assoc. reflexivity.
      * reflexivity.
    + eexists. cbn [snd stdout]. rewrite <- app_assoc. reflexivity.
Qed.

Lemma main_roleToAssume_interactive cfg acct roles t :
  ini.HasKey acct "assume_role" = false -> length roles <> 1%nat ->
  main_roleToAssume cfg acct roles t = main_choose roles (main_menu cfg roles t).
Proof.
  intros Hk Hl. unfold main_roleToAssume. rewrite Hk.
  destruct (len roles =? 1) eqn:E; [|reflexivity].
  apply Z.eqb_eq in E. unfold len in E. lia.
Qed.

(** What the menu prints. *)
Lemma main_menuMapped_stdout m roles : forall n t,
  exists lines,
    stdout (main_menuMapped m n roles t) = stdout t ++ lines /\
    length lines = length roles /\
    forall k role, nth_error roles k = Some role ->
      nth_error lines k = Some (spec_menuEntry (Some m) (n + Z.of_nat k + 1) role).
Proof.
  induction roles as [|r rest IH]; intros n t.
  - exists []. cbn [main_menuMapped]. rewrite app_nil_r. repeat split.
    intros [|k] role; discriminate.
  - cbn [main_menuMapped].
    set (t' := if ini.HasKey m (AccountId r) then _ else _).
    destruct (IH (n + 1) t') as (lines & Hout & Hlen & Hnth).
    exists (spec_menuEntry (Some m) (n + 1) r :: lines). split; [|split].
    + rewrite Hout. unfold t', spec_menuEntry.
      destruct (ini.HasKey m (AccountId r)); cbn [Printf stdout]; now rewrite <- app_assoc.
    + cbn [length]. now rewrite Hlen.
    + intros [|k] role; cbn [nth_error].
      * intros [= <-]. now rewrite Z.add_0_r.
      * intros Hk. rewrite (Hnth k role Hk). do 2 f_equal. lia.
Qed.

Lemma main_menuPlain_stdout roles : forall n t,
  exists lines,
    stdout (main_menuPlain n roles t) = stdout t ++ lines /\
    length lines = length roles /\
    forall k role, nth_error roles k = Some role ->
      nth_error lines k = Some (spec_menuEntry None (n + Z.of_nat k + 1) role).
Proof.
  induction roles as [|r rest IH]; intros n t.
  - exists []. cbn [main_menuPlain]. rewrite app_nil_r. repeat split.
    intros [|k] role; discriminate.
  - cbn [main_menuPlain].
    destruct (IH (n + 1) (Printf (fmt_d (n + 1) ++ ") " ++ RoleArn r ++ nl) t))
      as (lines & Hout & Hlen & Hnth).
    exists (spec_menuEntry None (n + 1) r :: lines). split; [|split].
    + rewrite Hout. unfold spec_menuEntry. cbn [Printf stdout]. now rewrite <- app_assoc.
    + cbn [length]. now rewrite Hlen.
    + intros [|k] role; cbn [nth_error].
      * intros [= <-]. now rewrite Z.add_0_r.
      * intros Hk. rewrite (Hnth k role Hk). do 2 f_equal. lia.
Qed.

End WithRoleMethods.

End SelectFacts.

Import SelectFacts.

(** * The role selection of [main] *)

(** Claim C8.  In the interactive selection (no [assume_role], and not
    exactly one role) [main] prints, after what was on the terminal, one
    entry per role in the order of the roles and then the prompt.  The entry
    of the role at position [k] (from 0) carries the number [k + 1] and is
    [<number>) <friendly-name>:role/<role-name>] when the configuration has
    an [account_map] section with the role's account id as a key, and
    [<number>) <full-arn>] when the section lacks the id or does not exist.
    Printing the menu reads nothing. *)
Theorem main_menu_entries {RM : RoleMethods} (cfg : ini.File) (acct : ini.SectionT)
    (roles : list Role) (t : Terminal) :
  exists lines,
    length lines = length roles /\
    (forall k role, nth_error roles k = Some role ->
       nth_error lines k
       = Some (spec_menuEntry (ini.GetSection cfg "account_map") (Z.of_nat k + 1) role)) /\
    stdin (main_menu cfg roles t) = stdin t /\
    stdout (main_menu cfg roles t) = stdout t ++ lines /\
    (ini.HasKey acct "assume_role" = false -> length roles <> 1%nat ->
     exists more,
       stdout (snd (main_roleToAssume cfg acct roles t))
       = stdout t ++ lines ++ "Enter the ID# of the role you want to assume: " :: more).
Proof.
  assert (H : exists lines,
    stdout (main_menu cfg roles t) = stdout t ++ lines /\
    length lines = length roles /\
    forall k role, nth_error roles k = Some role ->
      nth_error lines k
      = Some (spec_menuEntry (ini.GetSection cfg "account_map") (Z.of_nat k + 1) role)).
  { unfold main_menu. destruct (ini.GetSection cfg "account_map") as [m|].
    - apply (main_menuMapped_stdout m roles 0 t).
    - apply (main_menuPlain_stdout roles 0 t). }
  destruct H as (lines & H1 & H2 & H3). exists lines.
  split; [assumption|]. split; [assumption|].
  split; [apply main_menu_stdin|]. split; [assumption|].
  intros Hk Hl. rewrite main_roleToAssume_interactive by assumption.
  destruct (main_choose_stdout roles (main_menu cfg roles t)) as (more & Hm).
  exists more. rewrite Hm, H1. now rewrite <- app_assoc.
Qed.

(** Claim C3.  With [assume_role] configured, and roles that are ARNs (so
    none is the empty text): when the configured value is among the roles,
    [main] takes exactly that role, however many roles there are, and nothing
    is printed or read; when it is not, [main] ends with the role-not-found
    error, after printing that message only and reading nothing: neither the
    single-role shortcut nor the menu is reached. *)
Theorem assume_role_resolution {RM : RoleMethods} (cfg : ini.File) (acct : ini.SectionT)
    (roles : list Role) (t : Terminal) :
  ini.HasKey acct "assume_role" = true ->
  Forall (fun r : Role => r <> "") roles ->
  (In (ini.Key acct "assume_role") roles ->
     main_roleToAssume cfg acct roles t = (Ok (ini.Key acct "assume_role"), t)) /\
  (~ In (ini.Key acct "assume_role") roles ->
     main_roleToAssume cfg acct roles t
     = (Exit RoleNotFound,
        Printf ("ERROR: Unable to find role '" ++ ini.Key acct "assume_role"
                ++ "'.  Perhaps your federator configuration is incorrect?" ++ nl) t)).
Proof.
  intros Hk Hne. unfold main_roleToAssume. rewrite Hk. split; intros Hin.
  - rewrite main_findRole_found by assumption.
    rewrite Forall_forall in Hne. specialize (Hne _ Hin).
    apply String.eqb_neq in Hne. now rewrite Hne.
  - now rewrite main_findRole_missing by assumption.
Qed.

(** Claim C6.  Without [assume_role] and with exactly one role, [main] takes
    that role and the terminal is as it was: no menu, no prompt, nothing
    read. *)
Theorem single_role_no_prompt {RM : RoleMethods} (cfg : ini.File) (acct : ini.SectionT)
    (r : Role) (t : Terminal) :
  ini.HasKey acct "assume_role" = false ->
  main_roleToAssume cfg acct [r] t = (Ok r, t).
Proof. intros Hk. unfold main_roleToAssume. now rewrite Hk. Qed.

(** Claim C5.  Once a number [i] has been read, [main] ends with the
    invalid-selection error exactly when [i > len(roles) + 1]; there is no
    lower bound.  So [0], every negative number and [len(roles) + 1] pass the
    check, and for each of them the index [i - 1] is outside the roles: the
    lookup panics. *)
Theorem bounds_check_gap (roles : list Role) (t : Terminal) (line : string)
    (rest : list string) (i : Z) :
  stdin t = line :: rest ->
  scanInt line = Some i ->
  len roles < max_int ->
  (fst (main_choose roles t) = Exit InvalidSelection <-> i > len roles + 1) /\
  (i <= 0 \/ i = len roles + 1 ->
     fst (main_choose roles t) = Panic (sub64 i 1) /\ ~ (0 <= sub64 i 1 < len roles)).
Proof.
  intros Hin Hscan Hlen. rewrite (main_choose_line roles t line rest Hin), Hscan.
  pose proof (scanInt_range _ _ Hscan) as Hi.
  assert (Hl0 : 0 <= len roles) by (unfold len; lia).
  assert (Hadd : add64 (len roles) 1 = len roles + 1).
  { unfold add64. apply wrap64_small. unfold min_int, max_int in *. rewrite pow63 in *. lia. }
  rewrite Hadd.
  assert (Hout : i <= 0 \/ i = len roles + 1 -> ~ (0 <= sub64 i 1 < len roles)).
  { intros Hc. destruct (Z.eq_dec i min_int) as [->|Hmin].
    - rewrite sub64_min. lia.
    - unfold sub64. rewrite wrap64_small; unfold min_int, max_int in *; rewrite ?pow63 in *; lia. }
  split.
  - destruct (i >? len roles + 1) eqn:E.
    + split; [lia|reflexivity].
    + split; [|lia]. unfold index.
      destruct ((0 <=? sub64 i 1) && (sub64 i 1 <? len roles)); [|discriminate].
      destruct (nth_error roles (Z.to_nat (sub64 i 1))); discriminate.
  - intros Hc. split; [|now apply Hout].
    assert (E : (i >? len roles + 1) = false) by lia. rewrite E.
    apply index_out. now apply Hout.
Qed.

(** Claim C4, on the code.  Without [assume_role] and with the roles
    [A, B, C]: the input [2] selects [B], the input [x] ends [main] with the
    invalid-selection error, and the input [0] passes the check and makes
    [main] panic on the index [-1]. *)
Theorem interactive_selection_ABC {RM : RoleMethods} (cfg : ini.File) (acct : ini.SectionT)
    (A B C : Role) (rest out : list string) :
  ini.HasKey acct "assume_role" = false ->
  fst (main_roleToAssume cfg acct [A; B; C] (mkTerminal ("2" :: rest) out)) = Ok B /\
  fst (main_roleToAssume cfg acct [A; B; C] (mkTerminal ("x" :: rest) out))
    = Exit InvalidSelection /\
  fst (main_roleToAssume cfg acct [A; B; C] (mkTerminal ("0" :: rest) out)) = Panic (-1).
Proof.
  intros Hk. rewrite !main_roleToAssume_interactive by (assumption || discriminate).
  repeat split.
  - now rewrite (main_choose_line _ _ "2" rest) by (now rewrite main_menu_stdin).
  - now rewrite (main_choose_line _ _ "x" rest) by (now rewrite main_menu_stdin).
  - now rewrite (main_choose_line _ _ "0" rest) by (now rewrite main_menu_stdin).
Qed.

(** Claim C10, on the code.  When [GetRoles] fails and hands back no roles,
    [main] prints the error and goes on with the empty list.  With
    [assume_role] configured it then ends with the role-not-found error.
    Without, it prompts: an input that is no number, or a number above [1],
    ends [main] with the invalid-selection error, and every number up to [1]
    (the input [1], for one) makes [main] panic on an index into the empty
    list. *)
Theorem GetRoles_failure_goes_on {RM : RoleMethods} (cfg : ini.File) (acct : ini.SectionT)
    (err : string) (t : Terminal) :
  main_GetRoles ([], Some err) t
    = ([], Printf ("ERROR: Could not retrieve roles: " ++ err ++ nl) t) /\
  (ini.HasKey acct "assume_role" = true ->
     fst (main_roles ([], Some err) cfg acct t) = Exit RoleNotFound) /\
  (ini.HasKey acct "assume_role" = false ->
     forall line rest, stdin t = line :: rest ->
       fst (main_roles ([], Some err) cfg acct t)
       = match scanInt line with
         | None => Exit InvalidSelection
         | Some i => if i >? 1 then Exit InvalidSelection else Panic (sub64 i 1)
         end) /\
  (ini.HasKey acct "assume_role" = false ->
     forall rest, stdin t = "1" :: rest ->
       fst (main_roles ([], Some err) cfg acct t) = Panic 0).
Proof.
  assert (Hgen : ini.HasKey acct "assume_role" = false ->
     forall line rest, stdin t = line :: rest ->
       fst (main_roles ([], Some err) cfg acct t)
       = match scanInt line with
         | None => Exit InvalidSelection
         | Some i => if i >? 1 then Exit InvalidSelection else Panic (sub64 i 1)
         end).
  { intros Hk line rest Hin. unfold main_roles, main_GetRoles. cbn [fst snd].
    rewrite main_roleToAssume_interactive by (assumption || discriminate).
    rewrite (main_choose_line _ _ line rest) by (now rewrite main_menu_stdin).
    destruct (scanInt line) as [i|]; [|reflexivity].
    change (add64 (len []) 1) with 1.
    destruct (i >? 1); [reflexivity|]. apply index_out. cbn. lia. }
  split; [reflexivity|]. split; [|split].
  - intros Hk. unfold main_roles, main_GetRoles, main_roleToAssume. cbn [fst snd].
    now rewrite Hk.
  - exact Hgen.
  - intros Hk rest Hin. now rewrite (Hgen Hk "1" rest Hin).
Qed.

(** Claim C9.  [matchAccount] always returns: the first section whose name is
    the account name and [true] when there is one, the zero section and
    [false] when there is none.  The comparison is equality of the two
    strings, so a name that differs in case only is not found. *)
Theorem matchAccount_exact (c : configuration) :
  matchAccount c
    = match ini.lookupSection (account c) (cfg c) with
      | Some acct => (acct, true)
      | None => (ini.zeroSection, false)
      end /\
  (snd (matchAccount c) = true <-> In (account c) (ini.SectionStrings (cfg c))) /\
  (snd (matchAccount c) = true -> ini.Name (fst (matchAccount c)) = account c) /\
  (~ In (account c) (ini.SectionStrings (cfg c)) ->
     matchAccount c = (ini.zeroSection, false)) /\
  matchAccount (mkConfiguration "" [ini.newSection "DEFAULT"; ini.newSection "Acme"]
                  "acme" "default")
    = (ini.zeroSection, false).
Proof.
  assert (H : matchAccount c
    = match ini.lookupSection (account c) (cfg c) with
      | Some acct => (acct, true)
      | None => (ini.zeroSection, false)
      end).
  { unfold matchAccount, ini.Sections. induction (cfg c) as [|s rest IH]; simpl.
    - reflexivity.
    - now destruct (String.eqb (ini.Name s) (account c)). }
  split; [exact H|]. rewrite H.
  destruct (ini.lookupSection (account c) (cfg c)) as [acct|] eqn:E; cbn [fst snd].
  - apply lookupSection_Some in E. destruct E as [Hn Hin].
    split; [|split; [|split]].
    + split; [|reflexivity]. intros _. rewrite <- Hn. unfold ini.SectionStrings.
      now apply in_map.
    + intros _. exact Hn.
    + intros Hno. exfalso. apply Hno. rewrite <- Hn. unfold ini.SectionStrings.
      now apply in_map.
    + reflexivity.
  - apply lookupSection_None in E. split; [|split; [|split]].
    + split; [discriminate|contradiction].
    + discriminate.
    + reflexivity.
    + reflexivity.
Qed.

(** * A worked configuration *)

Definition admin : Role := "arn:aws:iam::111111111111:role/Admin".
Definition readOnly : Role := "arn:aws:iam::111111111111:role/ReadOnly".

Definition acct_acme : ini.SectionT :=
  ini.mkSection "acme" [("sp_identity_url", "https://idp.example/sso")].

Definition acct_pinned : ini.SectionT :=
  ini.mkSection "pinned"
    [("sp_identity_url", "https://idp.example/sso"); ("assume_role", admin)].

Definition cfg_acme : ini.File :=
  [ ini.newSection "DEFAULT"; acct_acme; acct_pinned;
    ini.mkSection "account_map" [("111111111111", "Acme-Prod")] ].

(** The scenario of the specification: two roles of one account, an account
    map that names it, and the input [1]. *)
Example menu_scenario :
  main_roleToAssume (RM := arnMethods) cfg_acme acct_acme [admin; readOnly]
    (mkTerminal ["1"] [])
  = (Ok admin,
     mkTerminal []
       [ ("1) Acme-Prod:role/Admin" ++ nl)%string;
         ("2) Acme-Prod:role/ReadOnly" ++ nl)%string;
         "Enter the ID# of the role you want to assume: " ]).
Proof. reflexivity. Qed.

Example matchAccount_scenario :
  matchAccount (mkConfiguration "" cfg_acme "acme" "default") = (acct_acme, true) /\
  matchAccount (mkConfiguration "" cfg_acme "ACME" "default") = (ini.zeroSection, false) /\
  account (main_account (mkConfiguration "" cfg_acme "" "default")) = "default".
Proof. repeat split. Qed.

Lemma assume_role_resolution_witness :
  main_roleToAssume (RM := arnMethods) cfg_acme acct_pinned [readOnly; admin]
    (mkTerminal ["7"] [])
  = (Ok admin, mkTerminal ["7"] []).
Proof.
  apply (assume_role_resolution (RM := arnMethods) cfg_acme acct_pinned [readOnly; admin]
           (mkTerminal ["7"] [])).
  - reflexivity.
  - repeat constructor; discriminate.
  - simpl. auto.
Defined.

Lemma single_role_no_prompt_witness :
  main_roleToAssume (RM := arnMethods) cfg_acme acct_acme [readOnly] (mkTerminal ["7"] [])
  = (Ok readOnly, mkTerminal ["7"] []).
Proof.
  apply (single_role_no_prompt (RM := arnMethods) cfg_acme acct_acme readOnly
           (mkTerminal ["7"] [])).
  reflexivity.
Defined.

Lemma bounds_check_gap_witness :
  fst (main_choose [admin; readOnly] (mkTerminal ["3"] [])) = Panic (sub64 3 1) /\
  ~ (0 <= sub64 3 1 < len [admin; readOnly]).
Proof.
  apply (bounds_check_gap [admin; readOnly] (mkTerminal ["3"] []) "3" [] 3).
  - reflexivity.
  - reflexivity.
  - reflexivity.
  - right. reflexivity.
Defined.

Lemma interactive_selection_ABC_witness :
  fst (main_roleToAssume (RM := arnMethods) cfg_acme acct_acme ["A"; "B"; "C"]
         (mkTerminal ["2"] [])) = Ok "B" /\
  fst (main_roleToAssume (RM := arnMethods) cfg_acme acct_acme ["A"; "B"; "C"]
         (mkTerminal ["x"] [])) = Exit InvalidSelection /\
  fst (main_roleToAssume (RM := arnMethods) cfg_acme acct_acme ["A"; "B"; "C"]
         (mkTerminal ["0"] [])) = Panic (-1).
Proof.
  apply (interactive_selection_ABC (RM := arnMethods) cfg_acme acct_acme "A" "B" "C" [] []).
  reflexivity.
Defined.

Lemma GetRoles_failure_goes_on_witness :
  fst (main_roles (RM := arnMethods) ([], Some "timeout") cfg_acme acct_acme
         (mkTerminal ["1"] [])) = Panic 0.
Proof.
  apply (GetRoles_failure_goes_on (RM := arnMethods) cfg_acme acct_acme "timeout"
           (mkTerminal ["1"] [])) with (rest := []); reflexivity.
Defined.

(** Why the roles are taken to be non-empty texts: the empty text is how the
    loop of lines 166 to 171 says that it found nothing. *)
Example empty_role_is_the_marker :
  main_roleToAssume (RM := arnMethods) cfg_acme
    (ini.mkSection "blank" [("assume_role", "")]) [""] (mkTerminal [] [])
  = (Exit RoleNotFound,
     mkTerminal []
       [ ("ERROR: Unable to find role ''.  Perhaps your federator configuration is incorrect?"
          ++ nl)%string ]).
Proof. reflexivity. Qed.

(** * More on the role selection *)

Module SelectMore.

Lemma index_Ok_In {A : Type} (s : list A) j a : index s j = Ok a -> In a s.
Proof.
  unfold index. destruct ((0 <=? j) && (j <? len s)); [|discriminate].
  destruct (nth_error s (Z.to_nat j)) as [x|] eqn:E; [|discriminate].
  intros [= <-]. eapply nth_error_In; eassumption.
Qed.

Lemma main_findRole_cases a roles :
  (main_findRole a roles = a /\ In a roles) \/ main_findRole a roles = "".
Proof.
  induction roles as [|r rest IH]; simpl; [now right|].
  destruct (String.eqb a r) eqn:E.
  - apply String.eqb_eq in E. subst. left. split; [reflexivity|now left].
  - destruct IH as [[H1 H2]|H]; [left|now right]. split; [assumption|now right].
Qed.

(** The three ways [main_choose] can end, with the terminal each leaves. *)
Lemma main_choose_cases roles t :
  (exists msg, main_choose roles t
     = (Exit InvalidSelection,
        mkTerminal (tl (stdin t)) (stdout t ++ [prompt; msg]))) \/
  (exists line rest i,
     stdin t = line :: rest /\ scanInt line = Some i /\
     (i >? add64 (len roles) 1) = false /\
     main_choose roles t
     = (index roles (sub64 i 1), mkTerminal rest (stdout t ++ [prompt]))).
Proof.
  unfold main_choose, Scanf_d, Printf. cbn [stdin stdout].
  destruct (stdin t) as [|line rest] eqn:Ein.
  - left. eexists. cbn [tl stdin stdout]. now rewrite <- app_assoc.
  - destruct (scanInt line) as [i|] eqn:Es.
    + destruct (i >? add64 (len roles) 1) eqn:Ec.
      * left. eexists. cbn [tl stdin stdout]. now rewrite <- app_assoc.
      * right. exists line, rest, i. repeat split; assumption.
    + left. eexists. cbn [tl stdin stdout]. now rewrite <- app_assoc.
Qed.

End SelectMore.

Import SelectMore.

(** Property X1.  Whatever role [main] settles on is one of the roles it was given: by the
    configured name, as the only role, or by the menu. *)
Theorem main_roleToAssume_member {RM : RoleMethods} (cfg : ini.File) (acct : ini.SectionT)
    (roles : list Role) (t : Terminal) (r : Role) :
  fst (main_roleToAssume cfg acct roles t) = Ok r -> In r roles.
Proof.
  unfold main_roleToAssume.
  destruct (ini.HasKey acct "assume_role").
  - destruct (main_findRole_cases (ini.Key acct "assume_role") roles) as [[E Hin]|E];
      rewrite E.
    + destruct (String.eqb (ini.Key acct "assume_role") ""); [discriminate|].
      cbn [fst]. now intros [= <-].
    + discriminate.
  - destruct (len roles =? 1).
    + cbn [fst]. apply index_Ok_In.
    + destruct (main_choose_cases roles (main_menu cfg roles t))
        as [(msg & E)|(line & rest & i & _ & _ & _ & E)]; rewrite E; cbn [fst].
      * discriminate.
      * apply index_Ok_In.
Qed.

Lemma main_roleToAssume_member_witness :
  In readOnly [admin; readOnly].
Proof.
  apply (main_roleToAssume_member (RM := arnMethods) cfg_acme acct_acme
           [admin; readOnly] (mkTerminal ["2"] []) readOnly).
  reflexivity.
Defined.

(** Property X2.  With [assume_role] configured, whatever the roles are, [main] reads
    nothing and prints no menu, never panics and never reports an invalid
    selection; it either takes the configured role, leaving the terminal as
    it was, or ends with the role-not-found error.  The outcome does not
    depend on the configuration file either. *)
Theorem assume_role_never_interactive {RM : RoleMethods} (cfg cfg' : ini.File)
    (acct : ini.SectionT) (roles : list Role) (t : Terminal) :
  ini.HasKey acct "assume_role" = true ->
  stdin (snd (main_roleToAssume cfg acct roles t)) = stdin t /\
  (forall i, fst (main_roleToAssume cfg acct roles t) <> Panic i) /\
  fst (main_roleToAssume cfg acct roles t) <> Exit InvalidSelection /\
  (forall r, fst (main_roleToAssume cfg acct roles t) = Ok r ->
     r = ini.Key acct "assume_role" /\ snd (main_roleToAssume cfg acct roles t) = t) /\
  main_roleToAssume cfg acct roles t = main_roleToAssume cfg' acct roles t.
Proof.
  intros Hk. unfold main_roleToAssume. rewrite Hk.
  destruct (main_findRole_cases (ini.Key acct "assume_role") roles) as [[E Hin]|E];
    rewrite E.
  - destruct (String.eqb (ini.Key acct "assume_role") ""); cbn [fst snd Printf stdin];
      repeat split; try discriminate; congruence.
  - cbn [String.eqb fst snd Printf stdin]. repeat split; discriminate.
Qed.

Lemma assume_role_never_interactive_witness :
  stdin (snd (main_roleToAssume (RM := arnMethods) cfg_acme acct_pinned [] (mkTerminal ["0"] [])))
    = ["0"] /\
  (forall i, fst (main_roleToAssume (RM := arnMethods) cfg_acme acct_pinned []
                    (mkTerminal ["0"] [])) <> Panic i).
Proof.
  destruct (assume_role_never_interactive (RM := arnMethods) cfg_acme [] acct_pinned []
              (mkTerminal ["0"] []) eq_refl) as (H1 & H2 & _).
  split; [exact H1|exact H2].
Defined.

(** Property X3.  [main] never asks twice: the role selection reads at most one line, and
    what it prints is added after what was on the terminal. *)
Theorem main_roleToAssume_reads_one_line {RM : RoleMethods} (cfg : ini.File)
    (acct : ini.SectionT) (roles : list Role) (t : Terminal) :
  (stdin (snd (main_roleToAssume cfg acct roles t)) = stdin t \/
   stdin (snd (main_roleToAssume cfg acct roles t)) = tl (stdin t)) /\
  exists more, stdout (snd (main_roleToAssume cfg acct roles t)) = stdout t ++ more.
Proof.
  unfold main_roleToAssume.
  destruct (ini.HasKey acct "assume_role").
  - destruct (String.eqb _ ""); cbn [snd Printf stdin stdout].
    + split; [now left|]. now eexists.
    + split; [now left|]. exists []. now rewrite app_nil_r.
  - destruct (len roles =? 1); cbn [snd].
    + split; [now left|]. exists []. now rewrite app_nil_r.
    + pose proof (main_menu_stdin cfg roles t) as Hs.
      assert (Ho : exists lines, stdout (main_menu cfg roles t) = stdout t ++ lines).
      { unfold main_menu. destruct (ini.GetSection cfg "account_map") as [m|].
        - destruct (main_menuMapped_stdout m roles 0 t) as (l & H & _). now exists l.
        - destruct (main_menuPlain_stdout roles 0 t) as (l & H & _). now exists l. }
      destruct Ho as (lines & Ho).
      destruct (main_choose_cases roles (main_menu cfg roles t))
        as [(msg & E)|(line & rest & i & Hin & _ & _ & E)]; rewrite E;
        cbn [snd stdin stdout]; rewrite Ho, <- app_assoc.
      * split; [right; now rewrite Hs|]. now eexists.
      * split; [right; now rewrite <- Hs, Hin|]. now eexists.
Qed.

(** * Numbers as they are printed and typed *)

Module DecimalFacts.

(** The value of the digits [d] read after the value [acc]. *)
Fixpoint horner (acc : Z) (d : Decimal.uint) : Z :=
  match d with
  | Decimal.Nil => acc
  | Decimal.D0 l => horner (10 * acc + 0) l
  | Decimal.D1 l => horner (10 * acc + 1) l
  | Decimal.D2 l => horner (10 * acc + 2) l
  | Decimal.D3 l => horner (10 * acc + 3) l
  | Decimal.D4 l => horner (10 * acc + 4) l
  | Decimal.D5 l => horner (10 * acc + 5) l
  | Decimal.D6 l => horner (10 * acc + 6) l
  | Decimal.D7 l => horner (10 * acc + 7) l
  | Decimal.D8 l => horner (10 * acc + 8) l
  | Decimal.D9 l => horner (10 * acc + 9) l
  end.

Lemma scanNumber_digits d : forall acc,
  scanNumber (NilEmpty.string_of_uint d) (Some acc) = Some (horner acc d).
Proof.
  induction d; intros acc; cbn [NilEmpty.string_of_uint horner]; try reflexivity;
    cbn [scanNumber]; rewrite <- IHd; reflexivity.
Qed.

Lemma scanNumber_digits_start d :
  d <> Decimal.Nil ->
  scanNumber (NilEmpty.string_of_uint d) None = Some (horner 0 d).
Proof.
  destruct d; intros Hd; try congruence;
    cbn [NilEmpty.string_of_uint horner scanNumber];
    rewrite <- scanNumber_digits; reflexivity.
Qed.

Lemma horner_acc d : forall acc : positive,
  horner (Z.pos acc) d = Z.pos (Pos.of_uint_acc d acc).
Proof.
  induction d; intros acc; cbn [horner Pos.of_uint_acc]; try reflexivity;
    rewrite <- IHd; f_equal; lia.
Qed.

Lemma horner_0 d : horner 0 d = Z.of_N (Pos.of_uint d).
Proof.
  induction d; cbn [horner Pos.of_uint]; try reflexivity;
    try (change (10 * 0 + 0) with 0; exact IHd);
    match goal with
    | |- horner ?z _ = _ => change z with (Z.pos (Z.to_pos z))
    end; rewrite horner_acc; reflexivity.
Qed.

Lemma to_uint_not_Nil p : Pos.to_uint p <> Decimal.Nil.
Proof.
  intros H. pose proof (DecimalPos.Unsigned.of_to p) as E. rewrite H in E. discriminate.
Qed.

(** A number that is not taken for blanks or a sign. *)
Lemma scanInt_digits d :
  d <> Decimal.Nil ->
  scanInt (NilEmpty.string_of_uint d)
  = if inRange64 (horner 0 d) then Some (horner 0 d) else None.
Proof.
  intros Hd. unfold scanInt.
  assert (Hs : skipSpace (NilEmpty.string_of_uint d) = NilEmpty.string_of_uint d)
    by (destruct d; reflexivity).
  rewrite Hs.
  assert (Hm : match NilEmpty.string_of_uint d with
               | String "-" t => option_map Z.opp (scanNumber t None)
               | String "+" t => scanNumber t None
               | _ => scanNumber (NilEmpty.string_of_uint d) None
               end = scanNumber (NilEmpty.string_of_uint d) None)
    by (destruct d; reflexivity).
  rewrite Hm, scanNumber_digits_start by assumption. reflexivity.
Qed.

(** What [%d] prints for a positive [int], [%d] reads back. *)
Lemma scanInt_fmt_d z : 0 < z <= max_int -> scanInt (fmt_d z) = Some z.
Proof.
  intros Hz. destruct z as [|p|p]; try lia.
  unfold fmt_d. cbn [Z.to_int NilZero.string_of_int].
  unfold NilZero.string_of_uint.
  pose proof (to_uint_not_Nil p) as Hn.
  destruct (Pos.to_uint p) eqn:E; try congruence; rewrite <- E in *;
    rewrite scanInt_digits by assumption;
    rewrite horner_0, DecimalPos.Unsigned.of_to; cbn [Z.of_N];
    (assert (Hr : inRange64 (Z.pos p) = true)
       by (unfold inRange64, min_int in *; apply andb_true_iff; split; lia));
    now rewrite Hr.
Qed.

End DecimalFacts.

Import DecimalFacts.

Module SelectAccept.

(** A number that passes the check: [main_choose] has printed the prompt,
    taken the line, and indexes the roles. *)
Lemma main_choose_accepts roles t line rest i :
  stdin t = line :: rest ->
  scanInt line = Some i ->
  len roles < max_int ->
  i <= len roles + 1 ->
  main_choose roles t
  = (index roles (sub64 i 1),
     mkTerminal rest (stdout t ++ ["Enter the ID# of the role you want to assume: "])).
Proof.
  intros Hin Hs Hlen Hi.
  unfold main_choose, Scanf_d, Printf. cbn [stdin stdout]. rewrite Hin, Hs.
  assert (Ha : add64 (len roles) 1 = len roles + 1).
  { unfold add64. apply wrap64_small. unfold min_int, max_int, len in *.
    rewrite pow63 in *. lia. }
  rewrite Ha. assert (Hc : (i >? len roles + 1) = false) by lia. now rewrite Hc.
Qed.

Lemma sub64_positive i : 1 <= i <= max_int -> sub64 i 1 = i - 1.
Proof.
  intros Hi. unfold sub64. apply wrap64_small. unfold min_int, max_int in *.
  rewrite pow63 in *. lia.
Qed.

End SelectAccept.

Import SelectAccept.

(** Property X4.  A number between [1] and [len(roles)] selects the role at
    that place: [main_choose] prints the prompt and nothing else, takes the
    line, and returns that role. *)
Theorem main_choose_in_range (roles : list Role) (t : Terminal) (line : string)
    (rest : list string) (i : Z) :
  stdin t = line :: rest ->
  scanInt line = Some i ->
  len roles < max_int ->
  1 <= i <= len roles ->
  exists role,
    nth_error roles (Z.to_nat (i - 1)) = Some role /\
    main_choose roles t
    = (Ok role,
       mkTerminal rest (stdout t ++ ["Enter the ID# of the role you want to assume: "])).
Proof.
  intros Hin Hs Hlen Hi.
  destruct (nth_error roles (Z.to_nat (i - 1))) as [role|] eqn:Hnth.
  - exists role. split; [reflexivity|].
    rewrite (main_choose_accepts roles t line rest i) by (assumption || lia).
    rewrite sub64_positive by lia. f_equal. apply index_in; [lia|assumption].
  - exfalso. apply nth_error_None in Hnth. unfold len in Hi. lia.
Qed.

Lemma main_choose_in_range_witness :
  exists role,
    nth_error [admin; readOnly] (Z.to_nat (2 - 1)) = Some role /\
    main_choose [admin; readOnly] (mkTerminal ["2"; "next"] ["before"])
    = (Ok role,
       mkTerminal ["next"] (["before"] ++ ["Enter the ID# of the role you want to assume: "])).
Proof.
  apply (main_choose_in_range [admin; readOnly] (mkTerminal ["2"; "next"] ["before"])
           "2" ["next"] 2); try reflexivity.
  unfold len. cbn. lia.
Defined.

(** Property X5.  Typing the number that the menu prints in front of a role selects that
    role: in the interactive selection the entry of the role at place [k]
    (from 0) is printed under the number [k + 1], and the input that is the
    same digits makes [main] take that role. *)
Theorem menu_number_selects {RM : RoleMethods} (cfg : ini.File) (acct : ini.SectionT)
    (roles : list Role) (k : nat) (role : Role) (rest out : list string) :
  ini.HasKey acct "assume_role" = false ->
  length roles <> 1%nat ->
  len roles < max_int ->
  nth_error roles k = Some role ->
  exists lines,
    nth_error lines k
      = Some (spec_menuEntry (ini.GetSection cfg "account_map") (Z.of_nat k + 1) role) /\
    main_roleToAssume cfg acct roles (mkTerminal (fmt_d (Z.of_nat k + 1) :: rest) out)
    = (Ok role,
       mkTerminal rest
         (out ++ lines ++ ["Enter the ID# of the role you want to assume: "])).
Proof.
  intros Hk Hl Hlen Hnth.
  set (t := mkTerminal (fmt_d (Z.of_nat k + 1) :: rest) out).
  assert (Ho : exists lines,
    stdout (main_menu cfg roles t) = stdout t ++ lines /\
    length lines = length roles /\
    forall k role, nth_error roles k = Some role ->
      nth_error lines k
      = Some (spec_menuEntry (ini.GetSection cfg "account_map") (Z.of_nat k + 1) role)).
  { unfold main_menu. destruct (ini.GetSection cfg "account_map") as [m|].
    - apply (main_menuMapped_stdout m roles 0 t).
    - apply (main_menuPlain_stdout roles 0 t). }
  destruct Ho as (lines & Ho & _ & Hl3). exists lines. split; [now apply Hl3|].
  rewrite main_roleToAssume_interactive by assumption.
  assert (Hklt : (k < length roles)%nat) by (apply nth_error_Some; congruence).
  rewrite (main_choose_accepts roles (main_menu cfg roles t)
             (fmt_d (Z.of_nat k + 1)) rest (Z.of_nat k + 1)).
  - rewrite sub64_positive by (unfold len in Hlen; lia).
    rewrite (index_in roles (Z.of_nat k + 1 - 1) role).
    + rewrite Ho. cbn [stdout t]. now rewrite <- app_assoc.
    + lia.
    + now replace (Z.to_nat (Z.of_nat k + 1 - 1)) with k by lia.
  - now rewrite main_menu_stdin.
  - apply scanInt_fmt_d. unfold len in Hlen. lia.
  - assumption.
  - unfold len. lia.
Qed.

Lemma menu_number_selects_witness :
  exists lines,
    nth_error lines 1
      = Some (spec_menuEntry (RM := arnMethods) (ini.GetSection cfg_acme "account_map")
                (Z.of_nat 1 + 1) readOnly) /\
    main_roleToAssume (RM := arnMethods) cfg_acme acct_acme [admin; readOnly]
      (mkTerminal (fmt_d (Z.of_nat 1 + 1) :: []) [])
    = (Ok readOnly,
       mkTerminal []
         ([] ++ lines ++ ["Enter the ID# of the role you want to assume: "])).
Proof.
  apply (menu_number_selects (RM := arnMethods) cfg_acme acct_acme [admin; readOnly]
           1%nat readOnly [] []); try reflexivity.
  discriminate.
Defined.

(** * More on [WriteAWSCredentials] *)

Module WriteMore.
Import ini IniFacts WriteFacts.

(** The file with a section of that name: itself, or with an empty one added
    at the end. *)
Definition ensure (name : string) (f : File) : File :=
  match lookupSection name f with
  | Some _ => f
  | None => f ++ [newSection name]
  end.

Lemma Load_wf d path f : Load d path = Some f -> wf f.
Proof.
  unfold Load. destruct (d path); [|discriminate]. apply LoadData_wf.
Qed.

Lemma wf_has_default f : wf f -> exists s, lookupSection DEFAULT_SECTION f = Some s.
Proof. intros ((ks & t & ->) & _). cbn [lookupSection Name]. rewrite String.eqb_refl. eauto. Qed.

Lemma lookupSection_ensure name f :
  exists s, lookupSection name (ensure name f) = Some s /\ Name s = name.
Proof.
  unfold ensure. destruct (lookupSection name f) as [s|] eqn:E.
  - exists s. split; [assumption|]. now apply lookupSection_Some in E.
  - exists (newSection name). rewrite lookupSection_snoc, E.
    cbn [newSection Name]. now rewrite String.eqb_refl.
Qed.

(** The part of [WriteAWSCredentials] before the save, in one piece: it fails
    for the user lookup and for the load only. *)
Lemma document_eq c p w :
  WriteAWSCredentials_document c p w
  = match currentUser w with
    | None => inl ErrCurrentUser
    | Some home =>
        match Load (disk w) (credentialsPath home) with
        | None => inl ErrLoad
        | Some f0 =>
            inr (credentialsPath home,
                 alterSection (sectionName p) (withCredentials c) (ensure (sectionName p) f0))
        end
    end.
Proof.
  unfold WriteAWSCredentials_document.
  destruct (currentUser w) as [home|]; cbn [orElse bindE]; [|reflexivity].
  destruct (Load (disk w) (credentialsPath home)) as [f0|] eqn:EL; cbn [orElse bindE];
    [|reflexivity].
  apply Load_wf in EL.
  assert (E1 : match GetSection f0 p with
               | Some _ => inr f0
               | None => orElse (NewSection f0 p) ErrCreateProfile
               end = inr (ensure (sectionName p) f0)).
  { unfold GetSection, ensure.
    destruct (lookupSection (sectionName p) f0) as [s|] eqn:Eg; [reflexivity|].
    unfold NewSection, sectionName in *. case_eqb p "".
    - destruct (wf_has_default f0 EL) as (s & Hs). congruence.
    - now rewrite Eg. }
  rewrite E1. cbn [bindE]. unfold GetSection.
  destruct (lookupSection_ensure (sectionName p) f0) as (prof & Hp & Hn).
  rewrite Hp. cbn [orElse bindE]. rewrite Hn. unfold NewKey.
  cbn [String.eqb Ascii.eqb Bool.eqb orElse bindE].
  rewrite !alterSection_compose by reflexivity. reflexivity.
Qed.

Lemma wf_ensure name f : wf f -> name <> "" -> wf (ensure name f).
Proof.
  intros Hwf Hne. unfold ensure. destruct (lookupSection name f) eqn:E; [assumption|].
  apply wf_snoc; [assumption|assumption|now apply lookupSection_None].
Qed.

(** The names of the keys after [NewKey]. *)
Lemma setKey_names_eq k v ks :
  map fst (setKey k v ks)
  = map fst ks ++ (if existsb (String.eqb k) (map fst ks) then [] else [k]).
Proof.
  induction ks as [|[k' v'] t IH]; cbn [setKey map fst existsb app]; [reflexivity|].
  rewrite (String.eqb_sym k k'). destruct (String.eqb k' k); cbn [orb map fst].
  - now rewrite app_nil_r.
  - now rewrite IH.
Qed.

Lemma threeKeys_names c ks :
  map fst (threeKeys c ks)
  = map fst ks
    ++ filter (fun k => negb (existsb (String.eqb k) (map fst ks))) managedKeys.
Proof.
  unfold threeKeys. rewrite !setKey_names_eq. rewrite !existsb_app.
  unfold managedKeys. cbn [filter].
  destruct (existsb (String.eqb "aws_access_key_id") (map fst ks));
    destruct (existsb (String.eqb "aws_secret_access_key") (map fst ks));
    destruct (existsb (String.eqb "aws_session_token") (map fst ks));
    cbn; rewrite ?app_nil_r, <- ?app_assoc; reflexivity.
Qed.

End WriteMore.

Import WriteMore.

(** Property X6.  The only errors [WriteAWSCredentials] returns are the failed user lookup,
    the failed load (no credentials file, or one that does not parse) and the
    failed save; creating the profile and writing the keys never fail,
    whatever the profile name, the empty one included. *)
Theorem WriteAWSCredentials_errors (c : Credentials) (p : string) (w : World) :
  snd (WriteAWSCredentials c p w)
  = match currentUser w with
    | None => Some ErrCurrentUser
    | Some home =>
        match ini.Load (disk w) (credentialsPath home) with
        | None => Some ErrLoad
        | Some _ =>
            match saveFault w with
            | None => None
            | Some _ => Some ErrSave
            end
        end
    end.
Proof.
  unfold WriteAWSCredentials. rewrite document_eq.
  destruct (currentUser w) as [home|]; [|reflexivity].
  destruct (ini.Load (disk w) (credentialsPath home)); [|reflexivity].
  unfold ini.SaveTo. now destruct (saveFault w).
Qed.

(** Property X7.  A profile that the credentials file does not have yet is added after all
    the sections of the file, with the three keys in the order access key,
    secret key, session token and nothing else; the call returns [nil]. *)
Theorem WriteAWSCredentials_new_profile (c : Credentials) (p : string) (w : World)
    (home : string) (before : ini.File) :
  currentUser w = Some home ->
  ini.Load (disk w) (credentialsPath home) = Some before ->
  ini.GetSection before p = None ->
  saveFault w = None ->
  let after :=
    before ++ [ini.mkSection p [("aws_access_key_id", AccessKeyId c);
                                ("aws_secret_access_key", SecretAccessKey c);
                                ("aws_session_token", SessionToken c)]] in
  snd (WriteAWSCredentials c p w) = None /\
  disk (fst (WriteAWSCredentials c p w)) (credentialsPath home) = Some (ini.WriteTo after) /\
  ini.Load (disk (fst (WriteAWSCredentials c p w))) (credentialsPath home) = Some after.
Proof.
  intros Hu HL Hg Hf after.
  assert (Hwf : ini.wf before) by (eapply Load_wf; eassumption).
  assert (Hp : ini.sectionName p = p).
  { unfold ini.sectionName. destruct (String.eqb p "") eqn:E; [|reflexivity].
    apply String.eqb_eq in E. subst.
    change (ini.lookupSection ini.DEFAULT_SECTION before = None) in Hg.
    destruct (wf_has_default before Hwf) as (s & Hs). congruence. }
  assert (Hdoc : ini.alterSection (ini.sectionName p) (withCredentials c)
                   (ensure (ini.sectionName p) before) = after).
  { unfold ensure. unfold ini.GetSection in Hg. rewrite Hg.
    rewrite alterSection_last; [|now apply lookupSection_None|reflexivity].
    now rewrite Hp. }
  assert (Hwfa : ini.wf after).
  { rewrite <- Hdoc. apply alter_withCredentials_wf. apply wf_ensure; [assumption|].
    apply sectionName_nonempty. }
  unfold WriteAWSCredentials. rewrite document_eq, Hu, HL, Hdoc.
  unfold ini.SaveTo. rewrite Hf. cbn [fst snd disk].
  split; [reflexivity|]. split.
  - unfold ini.store. now rewrite String.eqb_refl.
  - rewrite Load_store. now apply LoadData_WriteTo.
Qed.

Lemma WriteAWSCredentials_new_profile_witness :
  snd (WriteAWSCredentials creds1 "fresh" world0) = None /\
  disk (fst (WriteAWSCredentials creds1 "fresh" world0)) (credentialsPath home0)
  = Some (file0 ++ [ ini.Header "fresh";
                     ini.KeyValue "aws_access_key_id" "AKIA1";
                     ini.KeyValue "aws_secret_access_key" "secret1";
                     ini.KeyValue "aws_session_token" "token1" ]).
Proof.
  destruct (WriteAWSCredentials_new_profile creds1 "fresh" world0 home0
              [ ini.mkSection "DEFAULT" [("output", "json")];
                ini.mkSection "work" [("region", "us-east-1"); ("aws_access_key_id", "OLD")];
                ini.mkSection "other" [("aws_session_token", "T0")] ]
              eq_refl eq_refl eq_refl eq_refl) as (H1 & H2 & _).
  split; [exact H1|exact H2].
Defined.

Module WriteRuns.
Import ini IniFacts WriteFacts.

(** A call in a world where the user lookup, the load and the save go
    through. *)
Lemma Write_ok c p w home before :
  currentUser w = Some home ->
  Load (disk w) (credentialsPath home) = Some before ->
  saveFault w = None ->
  let after := alterSection (sectionName p) (withCredentials c) (ensure (sectionName p) before) in
  WriteAWSCredentials c p w
  = (mkWorld (Some home) (store (credentialsPath home) (Some (WriteTo after)) (disk w)) None,
     None) /\
  wf after /\
  Load (store (credentialsPath home) (Some (WriteTo after)) (disk w)) (credentialsPath home)
  = Some after.
Proof.
  intros Hu HL Hf after.
  assert (Hwf : wf after).
  { apply alter_withCredentials_wf, wf_ensure; [eapply Load_wf; eassumption|].
    apply sectionName_nonempty. }
  split; [|split; [assumption|]].
  - unfold WriteAWSCredentials. rewrite document_eq, Hu, HL. unfold SaveTo.
    now rewrite Hf.
  - rewrite Load_store. now apply LoadData_WriteTo.
Qed.

Lemma lookup_after_same c name f :
  exists s,
    lookupSection name (alterSection name (withCredentials c) (ensure name f))
    = Some (withCredentials c s) /\
    keys s = match lookupSection name f with Some s0 => keys s0 | None => [] end.
Proof.
  rewrite lookupSection_alter_same by reflexivity. unfold ensure.
  destruct (lookupSection name f) as [s|] eqn:E.
  - exists s. now rewrite E.
  - exists (newSection name). rewrite lookupSection_snoc, E.
    cbn [newSection Name]. now rewrite String.eqb_refl.
Qed.

Lemma lookup_after_other c name0 name f :
  name0 <> name ->
  lookupSection name0 (alterSection name (withCredentials c) (ensure name f))
  = lookupSection name0 f.
Proof.
  intros Hne. rewrite lookupSection_alter_other by (reflexivity || assumption).
  unfold ensure. destruct (lookupSection name f); [reflexivity|].
  rewrite lookupSection_snoc. destruct (lookupSection name0 f); [reflexivity|].
  cbn [newSection Name]. destruct (String.eqb name name0) eqn:E; [|reflexivity].
  apply String.eqb_eq in E. congruence.
Qed.

End WriteRuns.

Import WriteRuns.

(** Property X8.  In the profile a write leaves, the keys that were there stand where they
    stood, and the managed keys that were missing follow them in the order
    access key, secret key, session token.  No other key is added. *)
Theorem WriteAWSCredentials_key_order (c : Credentials) (p : string) (w : World)
    (home : string) (before : ini.File) :
  currentUser w = Some home ->
  ini.Load (disk w) (credentialsPath home) = Some before ->
  saveFault w = None ->
  exists after prof,
    ini.Load (disk (fst (WriteAWSCredentials c p w))) (credentialsPath home) = Some after /\
    ini.GetSection after p = Some prof /\
    let old := match ini.GetSection before p with
               | Some s => ini.KeyStrings s
               | None => []
               end in
    ini.KeyStrings prof
    = old ++ filter (fun k => negb (existsb (String.eqb k) old)) managedKeys.
Proof.
  intros Hu HL Hf.
  destruct (Write_ok c p w home before Hu HL Hf) as (E & Hwf & HL').
  destruct (lookup_after_same c (ini.sectionName p) before) as (s & Hs & Hk).
  eexists. exists (withCredentials c s). rewrite E. cbn [fst disk].
  split; [exact HL'|]. split; [exact Hs|].
  unfold ini.GetSection, ini.KeyStrings. cbn [withCredentials ini.keys].
  rewrite threeKeys_names, Hk.
  now destruct (ini.lookupSection (ini.sectionName p) before).
Qed.

Lemma WriteAWSCredentials_key_order_witness :
  exists after prof,
    ini.Load (disk (fst (WriteAWSCredentials creds1 "work" world0))) (credentialsPath home0)
      = Some after /\
    ini.GetSection after "work" = Some prof /\
    ini.KeyStrings prof
    = ["region"; "aws_access_key_id"; "aws_secret_access_key"; "aws_session_token"].
Proof.
  apply (WriteAWSCredentials_key_order creds1 "work" world0 home0
           [ ini.mkSection "DEFAULT" [("output", "json")];
             ini.mkSection "work" [("region", "us-east-1"); ("aws_access_key_id", "OLD")];
             ini.mkSection "other" [("aws_session_token", "T0")] ]);
    reflexivity.
Defined.

(** Property X9.  Writes to two different profiles, one after the other: both return
    [nil], and afterwards each profile holds the credentials written to it:
    the second write does not disturb what the first one wrote. *)
Theorem WriteAWSCredentials_two_profiles (c1 c2 : Credentials) (p1 p2 : string) (w : World)
    (home : string) (before : ini.File) :
  currentUser w = Some home ->
  ini.Load (disk w) (credentialsPath home) = Some before ->
  saveFault w = None ->
  ini.sectionName p1 <> ini.sectionName p2 ->
  let w1 := fst (WriteAWSCredentials c1 p1 w) in
  let w2 := fst (WriteAWSCredentials c2 p2 w1) in
  snd (WriteAWSCredentials c1 p1 w) = None /\
  snd (WriteAWSCredentials c2 p2 w1) = None /\
  exists doc,
    ini.Load (disk w2) (credentialsPath home) = Some doc /\
    profileKey doc p1 "aws_access_key_id" = Some (AccessKeyId c1) /\
    profileKey doc p1 "aws_secret_access_key" = Some (SecretAccessKey c1) /\
    profileKey doc p1 "aws_session_token" = Some (SessionToken c1) /\
    profileKey doc p2 "aws_access_key_id" = Some (AccessKeyId c2) /\
    profileKey doc p2 "aws_secret_access_key" = Some (SecretAccessKey c2) /\
    profileKey doc p2 "aws_session_token" = Some (SessionToken c2).
Proof.
  intros Hu HL Hf Hne w1 w2.
  destruct (Write_ok c1 p1 w home before Hu HL Hf) as (E1 & Hwf1 & HL1).
  set (after1 := ini.alterSection (ini.sectionName p1) (withCredentials c1)
                   (ensure (ini.sectionName p1) before)) in *.
  assert (Ew1 : w1 = mkWorld (Some home)
                  (ini.store (credentialsPath home) (Some (ini.WriteTo after1)) (disk w)) None)
    by (unfold w1; now rewrite E1).
  destruct (Write_ok c2 p2 w1 home after1) as (E2 & Hwf2 & HL2);
    try (rewrite Ew1; reflexivity).
  { rewrite Ew1. exact HL1. }
  set (after2 := ini.alterSection (ini.sectionName p2) (withCredentials c2)
                   (ensure (ini.sectionName p2) after1)) in *.
  split; [now rewrite E1|]. split; [now rewrite E2|].
  exists after2. split.
  { unfold w2. rewrite E2. exact HL2. }
  destruct (lookup_after_same c1 (ini.sectionName p1) before) as (s1 & Hs1 & _).
  destruct (lookup_after_same c2 (ini.sectionName p2) after1) as (s2 & Hs2 & _).
  assert (H1 : ini.lookupSection (ini.sectionName p1) after2 = Some (withCredentials c1 s1)).
  { unfold after2. rewrite lookup_after_other by assumption. exact Hs1. }
  unfold profileKey, ini.GetSection. rewrite H1. fold after2 in Hs2. rewrite Hs2.
  cbn [withCredentials ini.keys].
  destruct (threeKeys_managed c1 (ini.keys s1)) as (A1 & B1 & C1).
  destruct (threeKeys_managed c2 (ini.keys s2)) as (A2 & B2 & C2).
  repeat split; assumption.
Qed.

Lemma WriteAWSCredentials_two_profiles_witness :
  exists doc,
    ini.Load (disk (fst (WriteAWSCredentials creds2 "other"
                           (fst (WriteAWSCredentials creds1 "work" world0)))))
             (credentialsPath home0) = Some doc /\
    profileKey doc "work" "aws_access_key_id" = Some "AKIA1" /\
    profileKey doc "other" "aws_access_key_id" = Some "AKIA2".
Proof.
  destruct (WriteAWSCredentials_two_profiles creds1 creds2 "work" "other" world0 home0
              [ ini.mkSection "DEFAULT" [("output", "json")];
                ini.mkSection "work" [("region", "us-east-1"); ("aws_access_key_id", "OLD")];
                ini.mkSection "other" [("aws_session_token", "T0")] ]
              eq_refl eq_refl eq_refl)
    as (_ & _ & doc & H0 & H1 & _ & _ & H2 & _).
  - discriminate.
  - exists doc. repeat split; assumption.
Defined.

(** Property X10.  The empty profile name is the default section: a write to [""] does
    what a write to ["DEFAULT"] does, in every world. *)
Theorem WriteAWSCredentials_empty_profile (c : Credentials) (w : World) :
  WriteAWSCredentials c "" w = WriteAWSCredentials c "DEFAULT" w.
Proof. unfold WriteAWSCredentials. now rewrite !document_eq. Qed.

(** * The rest of [main.go]: loading the configuration, and [main] as a whole *)

(** The texts of the errors that the libraries hand to [main.go], which
    prints them with [%s]. *)
Record ErrorTexts : Type := mkErrorTexts
  { err_user_Current : string;
    err_ini_Load : string -> string;       (* by path *)
    err_ini_NewSection : string;
    err_ini_GetSection : string;
    err_ini_NewKey : string;
    err_ini_SaveTo : string;
    err_gopass_GetPasswd : string }.

(** How [loadConfigurationFile] ends: in [os.Exit(1)], with the error of
    [ini.Load], or with [nil]; [c] is the configuration as the call leaves
    it. *)
Inductive LoadResult : Type :=
| LoadExit
| LoadErr (c : configuration) (err : string)
| LoadNil (c : configuration).

(** [c.loadConfigurationFile()], lines 50 to 71.  The logger is left out (its
    lines carry the time of day). *)
Definition loadConfigurationFile (txt : ErrorTexts) (c : configuration) (w : World)
    (t : Terminal) : LoadResult * Terminal :=
  let located :=
    if String.eqb (path c) "" then
      match currentUser w with
      | None => None
      | Some home =>
          Some (mkConfiguration (filepath.Join home ".aws/federatedcli")
                  (cfg c) (account c) (profile c))
      end
    else Some c in
  match located with
  | None =>
      (LoadExit,
       Printf ("Error: Unable to get current user information: "
               ++ err_user_Current txt ++ nl) t)
  | Some c1 =>
      match ini.Load (disk w) (path c1) with
      | None => (LoadErr c1 (err_ini_Load txt (path c1)), t)
      | Some f => (LoadNil (mkConfiguration (path c1) f (account c1) (profile c1)), t)
      end
  end.

(** [strings.TrimSpace], for text in ASCII. *)
Definition isSpaceASCII (c : ascii) : bool :=
  let n := nat_of_ascii c in
  ((n =? 9) || (n =? 10) || (n =? 11) || (n =? 12) || (n =? 13) || (n =? 32))%nat.

Fixpoint trimLeft (s : string) : string :=
  match s with
  | String c t => if isSpaceASCII c then trimLeft t else s
  | EmptyString => EmptyString
  end.

Fixpoint trimRight (s : string) : string :=
  match s with
  | EmptyString => EmptyString
  | String c t =>
      match trimRight t with
      | EmptyString => if isSpaceASCII c then EmptyString else String c EmptyString
      | t' => String c t'
      end
  end.

Definition TrimSpace (s : string) : string := trimRight (trimLeft s).

(** [reader.ReadString('\n')] on the terminal, the error dropped as [main]
    drops it: the next line with its newline, nothing at the end of the
    input. *)
Definition ReadString (t : Terminal) : string * Terminal :=
  match stdin t with
  | [] => (EmptyString, t)
  | line :: rest => ((line ++ nl)%string, mkTerminal rest (stdout t))
  end.

(** [gopass.GetPasswd()]: the next line, without its newline; an error at the
    end of the input. *)
Definition GetPasswd (txt : ErrorTexts) (t : Terminal) : (string + string) * Terminal :=
  match stdin t with
  | [] => (inl (err_gopass_GetPasswd txt), t)
  | line :: rest => (inr line, mkTerminal rest (stdout t))
  end.

(** The session [federator.New] returns, by what its three methods return
    when [main] calls them, in the order in which it does. *)
Record Session : Type := mkSession
  { Login : option string;
    GetRoles : GetRolesResult;
    AssumeRole : Role -> string + Credentials }.

(** [federator.New(user, pass, spIdentityURL)] *)
Definition Provider : Type := string -> string -> string -> string + Session.

Definition Version : string := "0.0.1".

(** What [flag.Parse] leaves: the two boolean flags, the rest of the
    configuration, and the name of the program. *)
Record CommandLine : Type := mkCommandLine
  { program : string;
    version : bool;
    verbose : bool;
    conf : configuration }.

(** The text of the error [WriteAWSCredentials] returns. *)
Definition errorString (txt : ErrorTexts) (home : option string) (e : WriteError) : string :=
  match e with
  | ErrCurrentUser =>
      "Unable to get current user information: " ++ err_user_Current txt ++ nl
  | ErrLoad =>
      err_ini_Load txt (match home with Some h => credentialsPath h | None => "" end)
  | ErrCreateProfile => "Unable to create credential profile: " ++ err_ini_NewSection txt
  | ErrRetrieveProfile =>
      "Unable to retrieve recently created profile: " ++ err_ini_GetSection txt
  | ErrAccessKeyId =>
      "Unable to write aws_access_key_id to credential file: " ++ err_ini_NewKey txt
  | ErrSecretAccessKey =>
      "Unable to write aws_secret_access_key to credential file: " ++ err_ini_NewKey txt
  | ErrSessionToken =>
      "Unable to write aws_session_token to credential file: " ++ err_ini_NewKey txt
  | ErrSave => "Unable to save configuration to disk: " ++ err_ini_SaveTo txt
  end.

(** The places where [main] stops before its end. *)
Inductive Stop : Type :=
| StopVersion                 (* line 92, os.Exit(0) *)
| StopUser                    (* line 55, in loadConfigurationFile *)
| StopConfig                  (* line 106 *)
| StopAccount                 (* line 112 *)
| StopIdentityURL             (* line 117 *)
| StopPassword                (* line 142 *)
| StopInit                    (* line 151 *)
| StopLogin                   (* line 156 *)
| StopRole (e : Failure)      (* lines 175, 203, 208 *)
| StopAssume                  (* line 220 *)
| StopWrite (e : WriteError). (* line 225 *)

Inductive Ending : Type :=
| Stopped (s : Stop)
| Crashed (i : Z)
| Finished.

(** The exit status of the process ([2] is the status of a Go panic). *)
Definition exitStatus (e : Ending) : Z :=
  match e with
  | Stopped StopVersion => 0
  | Stopped _ => 1
  | Crashed _ => 2
  | Finished => 0
  end.

Record Run : Type := mkRun
  { ending : Ending;
    terminal : Terminal;
    stderr : list string;
    world : World }.

Section Main.
Context {RM : RoleMethods}.

(** Lines 121 to 130: the user name of the account, or the line typed after
    the prompt, trimmed. *)
Definition main_user (acct : ini.SectionT) (t : Terminal) : string * Terminal :=
  if ini.HasKey acct "username" then (ini.Key acct "username", t)
  else
    let (u, t') := ReadString (Printf "Enter Username: " t) in
    (TrimSpace u, t').

(** Lines 132 to 146: the password of the account, or the line typed after
    the prompt, as it is; [inl] is the error of [gopass.GetPasswd]. *)
Definition main_pass (txt : ErrorTexts) (acct : ini.SectionT) (t : Terminal)
    : (string + string) * Terminal :=
  if ini.HasKey acct "password" then (inr (ini.Key acct "password"), t)
  else GetPasswd txt (Printf "Enter Password: " t).

(** Lines 215 to 231: assume the role, write the credentials, report. *)
Definition main_finish (txt : ErrorTexts) (c : configuration) (aws : Session)
    (roleToAssume : Role) (w : World) (t : Terminal) : Run :=
  match AssumeRole aws roleToAssume with
  | inl err =>
      mkRun (Stopped StopAssume) (Printf ("ERROR: Failed to assume role: " ++ err) t) [] w
  | inr creds =>
      match WriteAWSCredentials creds (profile c) w with
      | (w', Some e) =>
          mkRun (Stopped (StopWrite e))
            (Printf ("ERROR: Failed to write credentials: "
                     ++ errorString txt (currentUser w) e) t) [] w'
      | (w', None) =>
          let t1 := Printf ("-------------------------------------------------------" ++ nl ++ nl) t in
          let t2 :=
            Printf ("Temporary credentials successfully saved to credential profile '"
                    ++ profile c ++ "'." ++ nl
                    ++ "You can use these credentials with the AWS CLI by including the '--profile "
                    ++ profile c ++ "' flag." ++ nl) t1 in
          let t3 := Printf ("They will remain valid until " ++ Expiration creds ++ nl) t2 in
          mkRun Finished t3 [] w'
      end
  end.

(** Lines 109 to 213, once the configuration is loaded: the account, its
    identity URL, the user name and the password, the session, the login and
    the role. *)
Definition main_session (txt : ErrorTexts) (New : Provider) (c : configuration)
    (w : World) (t : Terminal) : Run :=
  let (acct, found) := matchAccount c in
  if negb found then
    mkRun (Stopped StopAccount)
      (Printf ("ERROR: Could not find configuration matching provided account name '"
               ++ account c ++ "'" ++ nl) t) [] w
  else if negb (ini.HasKey acct "sp_identity_url") then
    mkRun (Stopped StopIdentityURL)
      (Printf ("ERROR: Account configuration '" ++ account c
               ++ "' does not have an 'sp_identity_url' defined" ++ nl) t) [] w
  else
    let spIdentityURL := ini.Key acct "sp_identity_url" in
    let (user, t1) := main_user acct t in
    match main_pass txt acct t1 with
    | (inl err, t2) =>
        mkRun (Stopped StopPassword)
          (Printf ("ERROR: Could not get password: " ++ err ++ nl) t2) [] w
    | (inr pass, t2) =>
        match New user pass spIdentityURL with
        | inl err =>
            mkRun (Stopped StopInit)
              (Printf ("ERROR: Failed to initialize federator: " ++ err ++ nl) t2) [] w
        | inr aws =>
            match Login aws with
            | Some err =>
                mkRun (Stopped StopLogin)
                  (Printf ("ERROR: Authentication failure: " ++ err ++ nl) t2) [] w
            | None =>
                match main_roles (GetRoles aws) (cfg c) acct t2 with
                | (Exit e, t3) => mkRun (Stopped (StopRole e)) t3 [] w
                | (Panic i, t3) => mkRun (Crashed i) t3 [] w
                | (Ok roleToAssume, t3) => main_finish txt c aws roleToAssume w t3
                end
            end
        end
    end.

(** [main()], lines 87 to 231. *)
Definition main (cl : CommandLine) (txt : ErrorTexts) (New : Provider) (w : World)
    (t : Terminal) : Run :=
  if version cl then
    mkRun (Stopped StopVersion) t [(program cl ++ " version " ++ Version ++ nl)%string] w
  else
    match loadConfigurationFile txt (main_account (conf cl)) w t with
    | (LoadExit, t1) => mkRun (Stopped StopUser) t1 [] w
    | (LoadErr _ err, t1) =>
        mkRun (Stopped StopConfig)
          (Printf ("Unable to parse configuration file: " ++ err ++ nl) t1) [] w
    | (LoadNil c, t1) => main_session txt New c w t1
    end.

End Main.

(** * Facts about [main] as a whole *)

Module MainFacts.

Lemma loadConfigurationFile_nil txt c w t c1 t1 :
  loadConfigurationFile txt c w t = (LoadNil c1, t1) ->
  t1 = t /\ account c1 = account c /\ profile c1 = profile c /\
  ini.Load (disk w) (path c1) = Some (cfg c1).
Proof.
  unfold loadConfigurationFile.
  destruct (String.eqb (path c) "").
  - destruct (currentUser w) as [home|]; [|discriminate]. cbn [path].
    destruct (ini.Load (disk w) (filepath.Join home ".aws/federatedcli")) eqn:E;
      [|discriminate].
    intros [= <- <-]. cbn [path cfg account profile]. auto.
  - destruct (ini.Load (disk w) (path c)) eqn:E; [|discriminate].
    intros [= <- <-]. cbn [path cfg account profile]. auto.
Qed.

Lemma loadConfigurationFile_stdin txt c w t :
  stdin (snd (loadConfigurationFile txt c w t)) = stdin t.
Proof.
  unfold loadConfigurationFile.
  destruct (String.eqb (path c) "").
  - destruct (currentUser w) as [home|]; [|reflexivity]. cbn [path].
    now destruct (ini.Load (disk w) (filepath.Join home ".aws/federatedcli")).
  - now destruct (ini.Load (disk w) (path c)).
Qed.

Lemma main_account_profile c : profile (main_account c) = profile c.
Proof. unfold main_account. now destruct (String.eqb (account c) ""). Qed.

Lemma matchAccount_lookup c :
  matchAccount c
  = match ini.lookupSection (account c) (cfg c) with
    | Some acct => (acct, true)
    | None => (ini.zeroSection, false)
    end.
Proof.
  unfold matchAccount, ini.Sections. induction (cfg c) as [|s rest IH]; simpl.
  - reflexivity.
  - now destruct (String.eqb (ini.Name s) (account c)).
Qed.

(** A failed write that is not the failed save leaves the world alone. *)
Lemma Write_error_world c p w w' e :
  WriteAWSCredentials c p w = (w', Some e) -> e <> ErrSave -> w' = w.
Proof.
  unfold WriteAWSCredentials.
  destruct (WriteAWSCredentials_document c p w) as [e'|[cpath doc]].
  - now intros [= <- <-].
  - destruct (ini.SaveTo (saveFault w) doc cpath (disk w)) as [d [|]].
    + discriminate.
    + intros [= <- <-]. congruence.
Qed.

Lemma Write_success_profile c p w w' :
  WriteAWSCredentials c p w = (w', None) ->
  exists home doc,
    currentUser w = Some home /\
    ini.Load (disk w') (credentialsPath home) = Some doc /\
    profileKey doc p "aws_access_key_id" = Some (AccessKeyId c) /\
    profileKey doc p "aws_secret_access_key" = Some (SecretAccessKey c) /\
    profileKey doc p "aws_session_token" = Some (SessionToken c).
Proof.
  intros H. apply WriteFacts.success_inv in H.
  destruct H as (home & f0 & f1 & Hu & HL & Hf1 & Hwf & Hw & HL').
  exists home, (ini.alterSection (ini.sectionName p) (withCredentials c) f1).
  split; [assumption|]. split; [assumption|].
  assert (Hin : In (ini.sectionName p) (ini.SectionStrings f1)).
  { destruct Hf1 as [[-> Hin]|[-> Hn]]; [assumption|].
    unfold ini.SectionStrings. rewrite map_app. apply in_or_app. right. now left. }
  destruct (IniFacts.lookupSection_In _ _ Hin) as [s Hs].
  unfold profileKey, ini.GetSection.
  rewrite IniFacts.lookupSection_alter_same by reflexivity. rewrite Hs.
  cbn [option_map withCredentials ini.keys]. apply WriteFacts.threeKeys_managed.
Qed.

(** A write changes no file but the credentials file. *)
Lemma Write_other_files c p w q :
  (forall home, currentUser w = Some home -> q <> credentialsPath home) ->
  disk (fst (WriteAWSCredentials c p w)) q = disk w q.
Proof.
  intros Hq. unfold WriteAWSCredentials. rewrite WriteMore.document_eq.
  destruct (currentUser w) as [home|]; [|reflexivity].
  destruct (ini.Load (disk w) (credentialsPath home)); [|reflexivity].
  specialize (Hq home eq_refl). apply String.eqb_neq in Hq.
  unfold ini.SaveTo, ini.store.
  destruct (saveFault w); cbn [fst disk]; now rewrite Hq.
Qed.

(** The section names of a parsed file: those it started with and those of
    the headers. *)
Lemma parse_names ls : forall cur f f',
  ini.parse ls cur f = Some f' ->
  forall name, In name (ini.SectionStrings f') <->
               In name (ini.SectionStrings f) \/ In (ini.Header name) ls.
Proof.
  induction ls as [|[n|k v] rest IH]; intros cur f f'; cbn [ini.parse].
  - intros [= <-] name. cbn [In]. tauto.
  - unfold ini.NewSection. destruct (String.eqb n "") eqn:En; [discriminate|].
    destruct (ini.lookupSection n f) as [s|] eqn:El; intros H name;
      rewrite (IH _ _ _ H name); cbn [In].
    + apply IniFacts.lookupSection_Some in El. destruct El as [Hn Hin].
      split; [tauto|]. intros [H1|[H1|H1]]; [tauto| |tauto].
      injection H1 as <-. left. rewrite <- Hn. unfold ini.SectionStrings. now apply in_map.
    + unfold ini.SectionStrings. rewrite map_app, in_app_iff. cbn [map In ini.newSection ini.Name].
      split.
      * intros [[H1|[H1|[]]]|H1]; [tauto| |tauto]. subst. right. now left.
      * intros [H1|[H1|H1]]; [tauto| |tauto]. injection H1 as <-. tauto.
  - unfold ini.NewKey. destruct (String.eqb k ""); [discriminate|]. intros H name.
    rewrite (IH _ _ _ H name), IniFacts.alterSection_names by reflexivity.
    cbn [In]. split; [tauto|]. intros [H1|[H1|H1]]; [tauto|discriminate|tauto].
Qed.

Lemma LoadData_names ls f :
  ini.LoadData ls = Some f ->
  forall name, In name (ini.SectionStrings f) <->
               name = ini.DEFAULT_SECTION \/ In (ini.Header name) ls.
Proof.
  intros H name. rewrite (parse_names _ _ _ _ H name). cbn. intuition.
Qed.

Section WithRoleMethods.
Context {RM : RoleMethods}.

(** The two ends of the selection by configured name. *)
Lemma assume_role_outcome cfg acct roles t :
  ini.HasKey acct "assume_role" = true ->
  (exists r, main_roleToAssume cfg acct roles t = (Ok r, t)) \/
  (exists msg, main_roleToAssume cfg acct roles t = (Exit RoleNotFound, Printf msg t)).
Proof.
  intros Hk. unfold main_roleToAssume. rewrite Hk.
  destruct (String.eqb _ ""); [right|left]; eauto.
Qed.

Lemma main_roles_member res cfg acct t r :
  fst (main_roles res cfg acct t) = Ok r -> In r (fst res).
Proof.
  assert (H : forall roles t', fst (main_roleToAssume cfg acct roles t') = Ok r -> In r roles).
  { intros roles t'. unfold main_roleToAssume.
    destruct (ini.HasKey acct "assume_role").
    - destruct (main_findRole_cases (ini.Key acct "assume_role") roles) as [[E Hin]|E];
        rewrite E.
      + destruct (String.eqb (ini.Key acct "assume_role") ""); [discriminate|].
        cbn [fst]. now intros [= <-].
      + discriminate.
    - destruct (len roles =? 1).
      + cbn [fst]. apply index_Ok_In.
      + destruct (main_choose_cases roles (main_menu cfg roles t'))
          as [(msg & E)|(line & rest & i & _ & _ & _ & E)]; rewrite E; cbn [fst].
        * discriminate.
        * apply index_Ok_In. }
  unfold main_roles, main_GetRoles. destruct res as [roles [err|]]; cbn [fst snd]; apply H.
Qed.

End WithRoleMethods.

End MainFacts.

Import MainFacts.

(** Property X11.  After [loadConfigurationFile] has returned [nil], [matchAccount] finds
    the account exactly when the configuration file has a header of that
    name, or the name is that of ini's default section.  With no account on
    the command line the name is ["default"]: the lines before the first
    header, which ini keeps under ["DEFAULT"], are not that account. *)
Theorem account_found_iff_declared (txt : ErrorTexts) (c c1 : configuration) (w : World)
    (t t1 : Terminal) :
  loadConfigurationFile txt (main_account c) w t = (LoadNil c1, t1) ->
  exists ls,
    disk w (path c1) = Some ls /\
    account c1 = (if String.eqb (account c) "" then "default" else account c) /\
    (snd (matchAccount c1) = true <->
     account c1 = "DEFAULT" \/ In (ini.Header (account c1)) ls).
Proof.
  intros H. apply loadConfigurationFile_nil in H. destruct H as (_ & Ha & _ & HL).
  unfold ini.Load in HL. destruct (disk w (path c1)) as [ls|] eqn:Ed; [|discriminate].
  exists ls. split; [reflexivity|]. split.
  { rewrite Ha. unfold main_account. now destruct (String.eqb (account c) ""). }
  rewrite <- (LoadData_names ls (cfg c1) HL (account c1)).
  rewrite matchAccount_lookup.
  destruct (ini.lookupSection (account c1) (cfg c1)) as [s|] eqn:E; cbn [snd].
  - split; [intros _|reflexivity]. apply IniFacts.lookupSection_Some in E.
    destruct E as [Hn Hin]. rewrite <- Hn. unfold ini.SectionStrings. now apply in_map.
  - apply IniFacts.lookupSection_None in E. split; [discriminate|contradiction].
Qed.

(** A configuration file whose only lines stand before any header. *)
Definition world_headerless : World :=
  mkWorld (Some home0)
    (ini.store "/etc/federatedcli"
       (Some [ini.KeyValue "sp_identity_url" "https://idp.example/sso"]) (fun _ => None))
    None.

Definition noTexts : ErrorTexts := mkErrorTexts "" (fun _ => "") "" "" "" "" "".

Lemma account_found_iff_declared_witness :
  exists ls,
    disk world_headerless "/etc/federatedcli" = Some ls /\
    "default" = "default" /\
    (snd (matchAccount
            (mkConfiguration "/etc/federatedcli"
               [ini.mkSection "DEFAULT" [("sp_identity_url", "https://idp.example/sso")]]
               "default" "default")) = true <->
     "default" = "DEFAULT" \/ In (ini.Header "default") ls).
Proof.
  apply (account_found_iff_declared noTexts
           (mkConfiguration "/etc/federatedcli" [] "" "default")
           (mkConfiguration "/etc/federatedcli"
              [ini.mkSection "DEFAULT" [("sp_identity_url", "https://idp.example/sso")]]
              "default" "default")
           world_headerless (mkTerminal [] []) (mkTerminal [] [])).
  reflexivity.
Defined.

(** Property X12.  [main] changes no file except by the save at the end of
    [WriteAWSCredentials]: unless it runs to its end or stops on the failed
    save, the world is what it was, and in every case all files other than
    the credentials file are what they were. *)
Theorem main_changes_files_by_the_save_only {RM : RoleMethods} (cl : CommandLine)
    (txt : ErrorTexts) (New : Provider) (w : World) (t : Terminal) :
  (ending (main cl txt New w t) <> Finished ->
   ending (main cl txt New w t) <> Stopped (StopWrite ErrSave) ->
   world (main cl txt New w t) = w) /\
  (forall q, (forall home, currentUser w = Some home -> q <> credentialsPath home) ->
     disk (world (main cl txt New w t)) q = disk w q).
Proof.
  assert (Hfin : forall c aws role t',
    (ending (main_finish txt c aws role w t') <> Finished ->
     ending (main_finish txt c aws role w t') <> Stopped (StopWrite ErrSave) ->
     world (main_finish txt c aws role w t') = w) /\
    (forall q, (forall home, currentUser w = Some home -> q <> credentialsPath home) ->
       disk (world (main_finish txt c aws role w t')) q = disk w q)).
  { intros c aws role t'. unfold main_finish.
    destruct (AssumeRole aws role) as [err|creds]; cbn [ending world]; [now split|].
    pose proof (Write_other_files creds (profile c) w) as Ho.
    destruct (WriteAWSCredentials creds (profile c) w) as [w' [e|]] eqn:EW;
      cbn [ending world fst] in *.
    - split; [|exact Ho]. intros _ He. eapply Write_error_world; [eassumption|congruence].
    - split; [congruence|exact Ho]. }
  unfold main. destruct (version cl); cbn [ending world]; [now split|].
  destruct (loadConfigurationFile txt (main_account (conf cl)) w t) as [[| c err | c] t1];
    cbn [ending world]; try now split.
  unfold main_session. destruct (matchAccount c) as [acct found].
  destruct found; cbn [negb ending world]; [|now split].
  destruct (ini.HasKey acct "sp_identity_url"); cbn [negb ending world]; [|now split].
  destruct (main_user acct t1) as [user t2].
  destruct (main_pass txt acct t2) as [[err|pass] t3]; cbn [ending world]; [now split|].
  destruct (New user pass (ini.Key acct "sp_identity_url")) as [err|aws];
    cbn [ending world]; [now split|].
  destruct (Login aws); cbn [ending world]; [now split|].
  destruct (main_roles (GetRoles aws) (cfg c) acct t3) as [[role|e|i] t4];
    cbn [ending world]; try now split.
  apply Hfin.
Qed.

(** Property X13.  When [main] runs to its end, it has found the account, the provider has
    made a session with the account's identity URL, the login has succeeded,
    the role assumed is one of those the session listed, and the profile in
    the credentials file holds the three values of the credentials that the
    session issued for that role; the last line printed tells when they
    expire. *)
Theorem main_finished_means_written {RM : RoleMethods} (cl : CommandLine)
    (txt : ErrorTexts) (New : Provider) (w : World) (t : Terminal) :
  ending (main cl txt New w t) = Finished ->
  exists c acct user pass aws role creds home doc printed,
    version cl = false /\
    fst (loadConfigurationFile txt (main_account (conf cl)) w t) = LoadNil c /\
    matchAccount c = (acct, true) /\
    New user pass (ini.Key acct "sp_identity_url") = inr aws /\
    Login aws = None /\
    In role (fst (GetRoles aws)) /\
    AssumeRole aws role = inr creds /\
    currentUser w = Some home /\
    ini.Load (disk (world (main cl txt New w t))) (credentialsPath home) = Some doc /\
    profileKey doc (profile (conf cl)) "aws_access_key_id" = Some (AccessKeyId creds) /\
    profileKey doc (profile (conf cl)) "aws_secret_access_key" = Some (SecretAccessKey creds) /\
    profileKey doc (profile (conf cl)) "aws_session_token" = Some (SessionToken creds) /\
    stdout (terminal (main cl txt New w t))
    = printed ++ [("They will remain valid until " ++ Expiration creds ++ nl)%string].
Proof.
  unfold main. destruct (version cl); cbn [ending]; [discriminate|].
  destruct (loadConfigurationFile txt (main_account (conf cl)) w t) as [[| c err | c] t1] eqn:EL;
    cbn [ending]; try discriminate.
  apply loadConfigurationFile_nil in EL. destruct EL as (_ & _ & Hp & _).
  rewrite main_account_profile in Hp.
  unfold main_session. destruct (matchAccount c) as [acct found] eqn:Em.
  destruct found; cbn [negb ending]; [|discriminate].
  destruct (ini.HasKey acct "sp_identity_url"); cbn [negb ending]; [|discriminate].
  destruct (main_user acct t1) as [user t2].
  destruct (main_pass txt acct t2) as [[err|pass] t3]; cbn [ending]; [discriminate|].
  destruct (New user pass (ini.Key acct "sp_identity_url")) as [err|aws] eqn:EN;
    cbn [ending]; [discriminate|].
  destruct (Login aws) eqn:ELog; cbn [ending]; [discriminate|].
  destruct (main_roles (GetRoles aws) (cfg c) acct t3) as [[role|e|i] t4] eqn:ER;
    cbn [ending]; try discriminate.
  assert (Hin : In role (fst (GetRoles aws))).
  { apply (main_roles_member (GetRoles aws) (cfg c) acct t3). now rewrite ER. }
  unfold main_finish. destruct (AssumeRole aws role) as [err|creds] eqn:EA;
    cbn [ending]; [discriminate|].
  destruct (WriteAWSCredentials creds (profile c) w) as [w' [e|]] eqn:EW;
    cbn [ending]; [discriminate|]. intros _.
  destruct (Write_success_profile _ _ _ _ EW) as (home & doc & Hu & HLd & Ha & Hb & Hc).
  rewrite Hp in *.
  exists c, acct, user, pass, aws, role, creds, home, doc.
  eexists. cbn [world terminal fst Printf stdout].
  split; [reflexivity|]. split; [reflexivity|]. split; [exact Em|].
  split; [exact EN|]. split; [exact ELog|]. split; [exact Hin|].
  split; [exact EA|]. split; [exact Hu|]. split; [exact HLd|].
  split; [exact Ha|]. split; [exact Hb|]. split; [exact Hc|].
  reflexivity.
Qed.

(** A configuration file and a provider for a whole run. *)
Definition config0 : list ini.Line :=
  [ ini.Header "acme";
    ini.KeyValue "sp_identity_url" "https://idp.example/sso";
    ini.Header "pinned";
    ini.KeyValue "sp_identity_url" "https://idp.example/sso";
    ini.KeyValue "username" "alice";
    ini.KeyValue "password" "secret";
    ini.KeyValue "assume_role" admin;
    ini.Header "account_map";
    ini.KeyValue "111111111111" "Acme-Prod" ].

Definition world_main : World :=
  mkWorld (Some home0)
    (ini.store "/etc/federatedcli" (Some config0)
       (ini.store (credentialsPath home0) (Some file0) (fun _ => None)))
    None.

Definition session0 : Session :=
  mkSession None ([readOnly; admin], None) (fun _ => inr creds1).

Definition provider0 : Provider :=
  fun user pass url =>
    if String.eqb url "https://idp.example/sso" then inr session0 else inl "unknown URL".

Definition commandLine0 : CommandLine :=
  mkCommandLine "aws-cli-federator" false false
    (mkConfiguration "/etc/federatedcli" [] "pinned" "work").

Lemma main_finished_means_written_witness :
  exists c acct user pass aws role creds home doc printed,
    version commandLine0 = false /\
    fst (loadConfigurationFile noTexts (main_account (conf commandLine0)) world_main
           (mkTerminal [] [])) = LoadNil c /\
    matchAccount c = (acct, true) /\
    provider0 user pass (ini.Key acct "sp_identity_url") = inr aws /\
    Login aws = None /\
    In role (fst (GetRoles aws)) /\
    AssumeRole aws role = inr creds /\
    currentUser world_main = Some home /\
    ini.Load (disk (world (main (RM := arnMethods) commandLine0 noTexts provider0 world_main
                             (mkTerminal [] []))))
             (credentialsPath home) = Some doc /\
    profileKey doc (profile (conf commandLine0)) "aws_access_key_id" = Some (AccessKeyId creds) /\
    profileKey doc (profile (conf commandLine0)) "aws_secret_access_key"
      = Some (SecretAccessKey creds) /\
    profileKey doc (profile (conf commandLine0)) "aws_session_token"
      = Some (SessionToken creds) /\
    stdout (terminal (main (RM := arnMethods) commandLine0 noTexts provider0 world_main
                        (mkTerminal [] [])))
    = printed ++ [("They will remain valid until " ++ Expiration creds ++ nl)%string].
Proof.
  apply (main_finished_means_written (RM := arnMethods) commandLine0 noTexts provider0
           world_main (mkTerminal [] [])).
  reflexivity.
Defined.

(** Property X14.  An account that has its user name, its password and its role in the
    configuration runs unattended: [main] reads nothing from the terminal,
    and it neither panics nor stops for a password or a selection. *)
Theorem main_unattended {RM : RoleMethods} (cl : CommandLine) (txt : ErrorTexts)
    (New : Provider) (w : World) (t : Terminal) :
  (forall c,
     fst (loadConfigurationFile txt (main_account (conf cl)) w t) = LoadNil c ->
     snd (matchAccount c) = true ->
     ini.HasKey (fst (matchAccount c)) "username" = true /\
     ini.HasKey (fst (matchAccount c)) "password" = true /\
     ini.HasKey (fst (matchAccount c)) "assume_role" = true) ->
  stdin (terminal (main cl txt New w t)) = stdin t /\
  (forall i, ending (main cl txt New w t) <> Crashed i) /\
  ending (main cl txt New w t) <> Stopped StopPassword /\
  ending (main cl txt New w t) <> Stopped (StopRole InvalidSelection).
Proof.
  intros Hacct. unfold main. destruct (version cl); cbn [terminal ending].
  { repeat split; discriminate. }
  pose proof (loadConfigurationFile_stdin txt (main_account (conf cl)) w t) as Hs.
  destruct (loadConfigurationFile txt (main_account (conf cl)) w t) as [[| c err | c] t1];
    cbn [snd fst terminal ending Printf stdin] in *;
    try (repeat split; (assumption || discriminate)).
  specialize (Hacct c eq_refl). unfold main_session.
  destruct (matchAccount c) as [acct found]. cbn [fst snd] in Hacct.
  destruct found; cbn [negb terminal ending Printf stdin];
    [|repeat split; (assumption || discriminate)].
  destruct (Hacct eq_refl) as (Hu & Hp & Hr).
  destruct (ini.HasKey acct "sp_identity_url"); cbn [negb terminal ending Printf stdin];
    [|repeat split; (assumption || discriminate)].
  unfold main_user, main_pass. rewrite Hu, Hp.
  destruct (New (ini.Key acct "username") (ini.Key acct "password")
              (ini.Key acct "sp_identity_url")) as [err|aws];
    cbn [terminal ending Printf stdin];
    [repeat split; (assumption || discriminate)|].
  destruct (Login aws); cbn [terminal ending Printf stdin];
    [repeat split; (assumption || discriminate)|].
  unfold main_roles, main_GetRoles.
  set (t2 := match snd (GetRoles aws) with
             | Some e => Printf ("ERROR: Could not retrieve roles: " ++ e ++ nl) t1
             | None => t1
             end).
  assert (Ht2 : stdin t2 = stdin t).
  { unfold t2. now destruct (snd (GetRoles aws)). }
  assert (Er : (let (roles, t') :=
                  match snd (GetRoles aws) with
                  | Some err =>
                      (fst (GetRoles aws),
                       Printf ("ERROR: Could not retrieve roles: " ++ err ++ nl) t1)
                  | None => (fst (GetRoles aws), t1)
                  end in main_roleToAssume (cfg c) acct roles t')
               = main_roleToAssume (cfg c) acct (fst (GetRoles aws)) t2).
  { unfold t2. now destruct (snd (GetRoles aws)). }
  rewrite Er.
  destruct (assume_role_outcome (cfg c) acct (fst (GetRoles aws)) t2 Hr)
    as [(r & E)|(msg & E)]; rewrite E; cbn [terminal ending Printf stdin].
  - unfold main_finish. destruct (AssumeRole aws r) as [err|creds];
      cbn [terminal ending Printf stdin]; [repeat split; (assumption || discriminate)|].
    destruct (WriteAWSCredentials creds (profile c) w) as [w' [e|]];
      cbn [terminal ending Printf stdin]; repeat split; (assumption || discriminate).
  - repeat split; (assumption || discriminate).
Qed.

Lemma main_unattended_witness :
  stdin (terminal (main (RM := arnMethods) commandLine0 noTexts provider0 world_main
                     (mkTerminal ["unused"] [])))
  = ["unused"].
Proof.
  apply (main_unattended (RM := arnMethods) commandLine0 noTexts provider0 world_main
           (mkTerminal ["unused"] [])).
  intros c H _. vm_compute in H. injection H as <-. repeat split.
Defined.
